(** * gohttp: a shallow embedding of the HTTP diagnostic client

    The development follows the Go sources: [options.go] (flag handling),
    [tls.go] (TLS configuration and certificate reporting) and the main
    program (resolution, request construction, the probe loop).

    The Go standard library is the environment of the program.  Everything
    the program asks of it (URL parsing, name resolution, file reads, the
    HTTP exchange itself, the order in which a map is ranged over) is a
    field of the record [Env]; the program text is translated over it. *)

From Stdlib Require Import List String Ascii ZArith Bool Lia.
From Stdlib.Strings Require Import Byte.
Import ListNotations.
Open Scope string_scope.
Open Scope Z_scope.

(* ================================================================= *)
(** ** Values of the Go run time *)

(** A Go [error] value: its message. *)
Definition Error := string.

(** [time.Time] and [time.Duration], both in nanoseconds. *)
Definition Time := Z.

(** [net.IP]: a slice of bytes, 4 of them (IPv4) or 16 (IPv6). *)
Definition IP := list byte.

Definition is_zero (b : byte) : bool := Byte.eqb b x00.
Definition is_ff (b : byte) : bool := Byte.eqb b xff.

(** [net.IP.To4]: the 4-byte form of an address, if it has one.  A 4-byte
    slice is its own 4-byte form; a 16-byte slice has one when it is an
    IPv4-mapped address (ten zero bytes, then ff ff). *)
Definition To4 (ip : IP) : option IP :=
  if (List.length ip =? 4)%nat then Some ip
  else if (List.length ip =? 16)%nat
            && forallb is_zero (firstn 10 ip)
            && is_ff (nth 10 ip x00) && is_ff (nth 11 ip x00)
       then Some (skipn 12 ip)
       else None.

(** What a [fmt] verb is applied to. *)
Inductive Arg :=
| AStr (s : string)
| AStrs (l : list string)
| AInt (z : Z)
| AInts (l : list (list Z))
| ABool (b : bool)
| ABytes (b : list byte)
| AIP (ip : IP)
| AErr (e : Error).

(** [crypto/x509]: the public key of a certificate, by dynamic type. *)
Inductive PublicKey :=
| PkRSA (size_bytes : Z)          (* *rsa.PublicKey, with its Size() *)
| PkECDSA (X Y : Z)               (* *ecdsa.PublicKey *)
| PkEd25519Ptr                    (* *ed25519.PublicKey *)
| PkOther.

Record Certificate := {
  Version : Z;
  SerialNumber : Z;
  Subject : string;
  Issuer : string;
  DNSNames : list string;
  IPAddresses : list IP;
  EmailAddresses : list string;
  URIs : list string;
  SignatureAlgorithm : string;
  PublicKeyAlgorithm : string;
  CertPublicKey : PublicKey;
  NotBefore : Time;
  NotAfter : Time;
  CertKeyUsage : Z;
  ExtKeyUsage : list Z;
  BasicConstraintsValid : bool;
  IsCA : bool;
  SubjectKeyId : list byte;
  AuthorityKeyId : list byte;
  OCSPServer : list string;
  IssuingCertificateURL : list string;
  CRLDistributionPoints : list string;
  PolicyIdentifiers : list (list Z)
}.

(** [x509.CertPool] and [tls.Certificate] (a loaded client key pair). *)
Definition CertPool := list Certificate.
Definition KeyPair := (string * string)%type.

(** [tls.Config], the fields the program sets. *)
Record TLSConfig := {
  ServerName : string;
  InsecureSkipVerify : bool;
  RootCAs : option CertPool;
  Certificates : list KeyPair
}.

(** [tls.ConnectionState], the fields the program reads. *)
Record ConnectionState := {
  TLSVersion : Z;
  DidResume : bool;
  CipherSuite : Z;
  NegotiatedProtocol : string;
  ConnServerName : string;
  PeerCertificates : list Certificate;
  VerifiedChains : list (list Certificate)
}.

(** The body of a response as a stream: what reading it to the end gives
    (the bytes read, the error that stopped the read, if any) and how long
    that takes. *)
Record BodyStream := {
  body_data : list byte;
  body_err : option Error;
  body_time : Time
}.

(** [http.Header] is a map from a key to its values; the list gives its
    entries in the order a [range] statement visits them. *)
Definition Header := list (string * list string).

Record Response := {
  StatusCode : Z;
  Proto : string;
  ProtoMajor : Z;
  ProtoMinor : Z;
  ContentLength : Z;
  Close : bool;
  Uncompressed : bool;
  RespHeader : Header;
  Body : BodyStream;
  TLS : option ConnectionState
}.

(** [http.Request]: the URL, the header map (its entries in the order in
    which their keys were first added) and the credentials of
    [SetBasicAuth]. *)
Record Request := {
  Method : string;
  URL : string;
  ReqHeader : Header;
  BasicAuth : option (string * string)
}.

(** [http.Client] with its [http.Transport].  [DialAddress] is the address
    the overriding [DialContext] dials, [None] when the transport keeps its
    default dialer; [CheckRedirectLast] says that [CheckRedirect] returns
    [http.ErrUseLastResponse]. *)
Record Client := {
  Timeout : Time;
  TLSClientConfig : TLSConfig;
  ForceAttemptHTTP2 : bool;
  DialAddress : option string;
  CheckRedirectLast : bool
}.

(** [url.URL], the parts the program reads. *)
Record ParsedURL := {
  Scheme : string;
  Hostname : string;
  Port : string
}.

(* ================================================================= *)
(** ** The environment *)

Record Env := {
  url_Parse : string -> Error + ParsedURL;
  net_LookupIP : string -> Error + list IP;
  ioutil_ReadFile : string -> Error + list byte;
  AppendCertsFromPEM : list byte -> CertPool;
  tls_LoadX509KeyPair : string -> string -> Error + KeyPair;
  ip_String : IP -> string;
  (** one round trip of [client.Do] started at a given time: how long it
      takes until it returns, and the error or the response (headers
      received, body not yet read) it returns *)
  client_Do : Time -> Client -> Request -> Time * (Error + Response);
  (** the order in which [range KeyUsage] visits the table *)
  range_KeyUsage : list (Z * string);
  tls_CipherSuiteName : Z -> string;
  http_StatusText : Z -> string
}.

(* ================================================================= *)
(** ** Effects: a trace of events, a clock, and abrupt termination *)

Inductive Event :=
| EvPrintf (format : string) (args : list Arg)       (* fmt.Printf *)
| EvPrintln (args : list Arg)                        (* fmt.Println *)
| EvStderr (format : string)                         (* fmt.Fprintf(os.Stderr, ..) *)
| EvUsage                                            (* flag.Usage() *)
| EvLog (e : Error)                                  (* the line log.Fatal prints *)
| EvLookupIP (hostname : string)                     (* net.LookupIP *)
| EvReadFile (path : string)                         (* ioutil.ReadFile *)
| EvLoadX509KeyPair (cert key : string)              (* tls.LoadX509KeyPair *)
| EvDo (c : Client) (r : Request)                    (* client.Do *)
| EvReadAll                                          (* ioutil.ReadAll(response.Body) *)
| EvBodyClose.                                       (* the deferred Body.Close() *)

(** How a run stops when it does not return. *)
Inductive Stop :=
| Exited (code : Z)            (* os.Exit *)
| Panicked (msg : string).     (* a run-time panic *)

Inductive Res (A : Type) :=
| Ok (a : A)
| Halt (s : Stop).
Arguments Ok {A} a.
Arguments Halt {A} s.

(** A computation starts at a time and gives the events it caused, the
    time at which it stopped, and its result. *)
Definition M (A : Type) := Time -> list Event * Time * Res A.

Definition ret {A} (a : A) : M A := fun t => ([], t, Ok a).

Definition bind {A B} (m : M A) (f : A -> M B) : M B :=
  fun t =>
    match m t with
    | (tr, t1, Ok a) =>
        match f a t1 with
        | (tr', t2, r) => ((tr ++ tr')%list, t2, r)
        end
    | (tr, t1, Halt s) => (tr, t1, Halt s)
    end.

Declare Scope go_scope.
Delimit Scope go_scope with go.
Notation "x <- m ;; k" := (bind m (fun x => k))
  (at level 61, m at next level, right associativity) : go_scope.
Notation "' p <- m ;; k" := (bind m (fun p => k))
  (at level 61, p pattern, m at next level, right associativity) : go_scope.
Notation "m ;; k" := (bind m (fun _ => k))
  (at level 61, right associativity) : go_scope.
Open Scope go_scope.

Definition emit (e : Event) : M unit := fun t => ([e], t, Ok tt).
Definition halt {A} (s : Stop) : M A := fun t => ([], t, Halt s).
Definition time_Now : M Time := fun t => ([], t, Ok t).
Definition sleep (d : Time) : M unit := fun t => ([], t + d, Ok tt).

(** [log.Fatal(err)]: print the error, then [os.Exit(1)]. *)
Definition log_Fatal {A} (e : Error) : M A := emit (EvLog e) ;; halt (Exited 1).

(** [s[i]] on a slice. *)
Definition index {A} (s : list A) (i : nat) : M A :=
  match nth_error s i with
  | Some a => ret a
  | None => halt (Panicked "index out of range")
  end.

(** [for _, x := range l { body x }] *)
Fixpoint for_range {A} (l : list A) (body : A -> M unit) : M unit :=
  match l with
  | [] => ret tt
  | x :: l' => body x ;; for_range l' body
  end.

(** [for i, x := range l { body i x }], counting from [i]. *)
Fixpoint for_range_i {A} (i : Z) (l : list A) (body : Z -> A -> M unit) : M unit :=
  match l with
  | [] => ret tt
  | x :: l' => body i x ;; for_range_i (i + 1) l' body
  end.

Definition when (b : bool) (m : M unit) : M unit := if b then m else ret tt.

(** The parts of a finished run. *)
Definition trace_of {A} (r : list Event * Time * Res A) : list Event := fst (fst r).
Definition time_of {A} (r : list Event * Time * Res A) : Time := snd (fst r).
Definition result_of {A} (r : list Event * Time * Res A) : Res A := snd r.

(* ================================================================= *)
(** ** Strings *)

Definition nonempty (s : string) : bool := negb (String.eqb s "").

(** The text before and after the first colon of [s], if there is one. *)
Fixpoint cut_colon (s : string) : option (string * string) :=
  match s with
  | EmptyString => None
  | String c r =>
      if Ascii.eqb c ":" then Some (EmptyString, r)
      else match cut_colon r with
           | Some (a, b) => Some (String c a, b)
           | None => None
           end
  end.

(** [strings.SplitN(s, ":", 2)] *)
Definition SplitN_colon_2 (s : string) : list string :=
  match cut_colon s with
  | Some (a, b) => [a; b]
  | None => [s]
  end.

(** [strings.Contains(s, ":")] *)
Fixpoint contains_colon (s : string) : bool :=
  match s with
  | EmptyString => false
  | String c r => Ascii.eqb c ":" || contains_colon r
  end.

(** [strings.Join(l, sep)] *)
Fixpoint Join (l : list string) (sep : string) : string :=
  match l with
  | [] => ""
  | [s] => s
  | s :: l' => s ++ sep ++ Join l' sep
  end.

Definition is_lower (c : ascii) : bool :=
  (97 <=? nat_of_ascii c)%nat && (nat_of_ascii c <=? 122)%nat.
Definition is_upper (c : ascii) : bool :=
  (65 <=? nat_of_ascii c)%nat && (nat_of_ascii c <=? 90)%nat.
Definition is_digit (c : ascii) : bool :=
  (48 <=? nat_of_ascii c)%nat && (nat_of_ascii c <=? 57)%nat.

(** [net/textproto]: the bytes of a header field name (the token
    characters of RFC 7230). *)
Definition validHeaderFieldByte (c : ascii) : bool :=
  is_lower c || is_upper c || is_digit c
  || existsb (Ascii.eqb c) (list_ascii_of_string "!#$%&'*+-.^_`|~").

Definition to_upper (c : ascii) : ascii :=
  if is_lower c then ascii_of_nat (nat_of_ascii c - 32) else c.
Definition to_lower (c : ascii) : ascii :=
  if is_upper c then ascii_of_nat (nat_of_ascii c + 32) else c.

(** Upper case for the first letter and for a letter after a dash, lower
    case for the other letters. *)
Fixpoint canonical_case (upper : bool) (s : string) : string :=
  match s with
  | EmptyString => EmptyString
  | String c r =>
      let c := if upper then to_upper c else to_lower c in
      String c (canonical_case (Ascii.eqb c "-") r)
  end.

Fixpoint valid_field_name (s : string) : bool :=
  match s with
  | EmptyString => true
  | String c r => validHeaderFieldByte c && valid_field_name r
  end.

(** [textproto.CanonicalMIMEHeaderKey]: a key with a byte that cannot be
    part of a field name (a blank, for one) is left as it is. *)
Definition CanonicalMIMEHeaderKey (s : string) : string :=
  if valid_field_name s then canonical_case true s else s.

(* ================================================================= *)
(** ** options.go *)

Definition defaultTimeout : Time := 5 * 1000000000.
Definition defaultRetries : Z := 0.
Definition defaultAgent : string := "gohttp".

Record Options := {
  ipv6only : bool;          (* Use only IPv6 *)
  ipv4only : bool;          (* Use only IPv4 *)
  timeout : Time;           (* connection timeout *)
  retries : Z;              (* number of retries *)
  printbody : bool;         (* Print body *)
  bodyonly : bool;          (* Print body only *)
  queryall : bool;          (* Query all server addresses *)
  sni : string;             (* Server Name Indication option *)
  headers : list string;    (* Custom request headers *)
  cacert : string;          (* File containing PEM format CA certs *)
  clientcert : string;      (* File containing PEM format client cert *)
  clientkey : string;       (* File containing PEM format client key *)
  username : string;
  password : string;
  showcert : bool;          (* Show peer certificate *)
  showcertchain : bool;     (* Show peer certificate chain *)
  noredirect : bool;        (* Don't follow redirects *)
  noverify : bool;          (* Don't verify server certificate *)
  useragent : string
}.

(** What [flag.Parse()] leaves behind: the value of every flag (its
    default when the command line does not give it) and the remaining
    arguments.  [flag_header] collects the values of the repeated
    [-header] flag in command-line order ([arrayFlag.Set] appends). *)
Record Flags := {
  flag_h : bool;
  flag_6 : bool;
  flag_4 : bool;
  flag_t : Time;
  flag_printbody : bool;
  flag_bodyonly : bool;
  flag_queryall : bool;
  flag_noredirect : bool;
  flag_sni : string;
  flag_header : list string;
  flag_cacert : string;
  flag_clientcert : string;
  flag_clientkey : string;
  flag_authbasic : string;
  flag_showcert : bool;
  flag_showcertchain : bool;
  flag_noverify : bool;
  flag_Args : list string
}.

(** The global [options] once [flag.Parse()] has stored the flags in it:
    fields without a flag keep the value of the initialiser. *)
Definition options_of_flags (f : Flags) : Options :=
  {| ipv6only := flag_6 f;
     ipv4only := flag_4 f;
     timeout := flag_t f;
     retries := defaultRetries;
     printbody := flag_printbody f;
     bodyonly := flag_bodyonly f;
     queryall := flag_queryall f;
     sni := flag_sni f;
     headers := flag_header f;
     cacert := flag_cacert f;
     clientcert := flag_clientcert f;
     clientkey := flag_clientkey f;
     username := "";
     password := "";
     showcert := flag_showcert f;
     showcertchain := flag_showcertchain f;
     noredirect := flag_noredirect f;
     noverify := flag_noverify f;
     useragent := defaultAgent |}.

Definition set_credentials (o : Options) (u p : string) : Options :=
  {| ipv6only := ipv6only o; ipv4only := ipv4only o; timeout := timeout o;
     retries := retries o; printbody := printbody o; bodyonly := bodyonly o;
     queryall := queryall o; sni := sni o; headers := headers o;
     cacert := cacert o; clientcert := clientcert o; clientkey := clientkey o;
     username := u; password := p;
     showcert := showcert o; showcertchain := showcertchain o;
     noredirect := noredirect o; noverify := noverify o;
     useragent := useragent o |}.

Definition set_queryall (o : Options) (b : bool) : Options :=
  {| ipv6only := ipv6only o; ipv4only := ipv4only o; timeout := timeout o;
     retries := retries o; printbody := printbody o; bodyonly := bodyonly o;
     queryall := b; sni := sni o; headers := headers o;
     cacert := cacert o; clientcert := clientcert o; clientkey := clientkey o;
     username := username o; password := password o;
     showcert := showcert o; showcertchain := showcertchain o;
     noredirect := noredirect o; noverify := noverify o;
     useragent := useragent o |}.

Definition set_noredirect (o : Options) (b : bool) : Options :=
  {| ipv6only := ipv6only o; ipv4only := ipv4only o; timeout := timeout o;
     retries := retries o; printbody := printbody o; bodyonly := bodyonly o;
     queryall := queryall o; sni := sni o; headers := headers o;
     cacert := cacert o; clientcert := clientcert o; clientkey := clientkey o;
     username := username o; password := password o;
     showcert := showcert o; showcertchain := showcertchain o;
     noredirect := b; noverify := noverify o;
     useragent := useragent o |}.

(** [flag.NArg()] *)
Definition NArg (f : Flags) : nat := List.length (flag_Args f).

(** Format strings are kept as the source spells them, escapes included. *)
Definition msg_both_families : string :=
  "ERROR: Cannot specify both -4 and -6. Choose one.\n".
Definition msg_arguments : string :=
  "ERROR: incorrect number of arguments\n".

(** [doFlags]: process the command line options.  It gives the final
    value of the global [options] together with the URL it returns. *)
Definition doFlags (f : Flags) : M (Options * string) :=
  let options := options_of_flags f in
  options <-
    (if nonempty (flag_authbasic f) then
       let tmp := SplitN_colon_2 (flag_authbasic f) in
       u <- index tmp 0 ;;
       p <- index tmp 1 ;;
       ret (set_credentials options u p)
     else ret options) ;;
  (if ipv6only options && ipv4only options then
     emit (EvPrintf msg_both_families []) ;;
     emit EvUsage ;;
     halt (Exited 4)
   else ret tt) ;;
  let options :=
    if ipv6only options || ipv4only options
    then set_queryall options true else options in
  let options :=
    if queryall options then set_noredirect options true else options in
  (if flag_h f || negb (NArg f =? 1)%nat then
     when (negb (NArg f =? 0)%nat) (emit (EvStderr msg_arguments)) ;;
     emit EvUsage ;;
     halt (Exited 4)
   else ret tt) ;;
  url <- index (flag_Args f) 0 ;;
  ret (options, url).

(** [flag.Parse()] on the command line.  The flags are those of
    [flag.CommandLine], whose policy is [flag.ExitOnError]: for a flag
    that is not defined, or a value that does not parse, [flag.Parse()]
    ends the run itself, with [code], having written [out]; otherwise
    it leaves the values of the flags. *)
Inductive Parse :=
| ParseExit (out : list Event) (code : Z)
| ParseOk (f : Flags).

Definition flag_Parse (p : Parse) : M Flags :=
  match p with
  | ParseExit out code => fun t => (out, t, Halt (Exited code))
  | ParseOk f => ret f
  end.

(** [doFlags] from its first statement: the command line is parsed, and
    the statements after [flag.Parse()] are [doFlags] above. *)
Definition doFlags_Parse (p : Parse) : M (Options * string) :=
  f <- flag_Parse p ;;
  doFlags f.

(* ================================================================= *)
(** ** tls.go *)

(** A Go map literal as the list of its entries; a lookup of a missing key
    gives the zero value. *)
Fixpoint lookupZ (m : list (Z * string)) (k : Z) : string :=
  match m with
  | [] => ""
  | (k', v) :: m' => if k' =? k then v else lookupZ m' k
  end.

(** TLSversion - map TLS version number to string *)
Definition TLSversion : list (Z * string) :=
  [ (0x0300, "SSL3.0"); (0x0301, "TLS1.0"); (0x0302, "TLS1.1");
    (0x0303, "TLS1.2"); (0x0304, "TLS1.3") ].

(** KeyUsage value to string *)
Definition KeyUsage : list (Z * string) :=
  [ (1, "DigitalSignature"); (2, "ContentCommitment"); (4, "KeyEncipherment");
    (8, "DataEncipherment"); (16, "KeyAgreement"); (32, "CertSign");
    (64, "CRLSign"); (128, "EncipherOnly"); (256, "DecipherOnly") ].

(** ExtendedKeyUsage value to string *)
Definition ExtendedKeyUsage : list (Z * string) :=
  [ (0, "Any"); (1, "ServerAuth"); (2, "ClientAuth"); (3, "CodeSigning");
    (4, "EmailProtection"); (5, "IPSECEndSystem"); (6, "IPSECTunnel");
    (7, "IPSECUser"); (8, "TimeStamping"); (9, "OCSPSigning");
    (10, "MicrosoftServerGatedCrypto"); (11, "NetscapeServerGatedCrypto");
    (12, "MicrosoftCommercialCodeSigning"); (13, "MicrosoftKernelCodeSigning") ].

(** [big.Int.BitLen] *)
Definition BitLen (z : Z) : Z := if Z.abs z =? 0 then 0 else Z.log2 (Z.abs z) + 1.

Definition KeySizeInBits (publickey : PublicKey) : Z :=
  match publickey with
  | PkRSA size => size * 8
  | PkECDSA x y => BitLen x + BitLen y
  | PkEd25519Ptr => 256
  | PkOther => 0
  end.

Definition EKU2Strings (ekulist : list Z) : string :=
  Join (map (lookupZ ExtendedKeyUsage) ekulist) " ".

Section Program.

Variable env : Env.
Variable options : Options.

Definition KU2Strings (ku : Z) : string :=
  Join (map snd (filter (fun kv => Z.land ku (fst kv) =? fst kv)
                        (range_KeyUsage env))) " ".

(** Print some details of the certificate. *)
Definition printCertDetails (cert : Certificate) : M unit :=
  emit (EvPrintf "   X509 version: %d\n" [AInt (Version cert)]) ;;
  emit (EvPrintf "   Serial#: %x\n" [AInt (SerialNumber cert)]) ;;
  emit (EvPrintf "   Subject: %v\n" [AStr (Subject cert)]) ;;
  emit (EvPrintf "   Issuer:  %v\n" [AStr (Issuer cert)]) ;;
  for_range (DNSNames cert) (fun dnsName =>
    emit (EvPrintf "   SAN dNSName: %s\n" [AStr dnsName])) ;;
  for_range (IPAddresses cert) (fun ipAddress =>
    emit (EvPrintf "   SAN IPaddress: %s\n" [AIP ipAddress])) ;;
  for_range (EmailAddresses cert) (fun emailAddress =>
    emit (EvPrintf "   SAN emailAddress: %s\n" [AStr emailAddress])) ;;
  for_range (URIs cert) (fun uri =>
    emit (EvPrintf "   SAN URI: %v\n" [AStr uri])) ;;
  emit (EvPrintf "   Signature Algorithm: %v\n" [AStr (SignatureAlgorithm cert)]) ;;
  emit (EvPrintf "   PublicKey Algorithm: %v %d-Bits\n"
          [AStr (PublicKeyAlgorithm cert); AInt (KeySizeInBits (CertPublicKey cert))]) ;;
  emit (EvPrintf "   Inception:  %v\n" [AInt (NotBefore cert)]) ;;
  emit (EvPrintf "   Expiration: %v\n" [AInt (NotAfter cert)]) ;;
  emit (EvPrintf "   KU: %v\n" [AStr (KU2Strings (CertKeyUsage cert))]) ;;
  emit (EvPrintf "   EKU: %v\n" [AStr (EKU2Strings (ExtKeyUsage cert))]) ;;
  when (BasicConstraintsValid cert)
    (emit (EvPrintf "   Is CA?: %v\n" [ABool (IsCA cert)])) ;;
  emit (EvPrintf "   SKI: %x\n" [ABytes (SubjectKeyId cert)]) ;;
  emit (EvPrintf "   AKI: %x\n" [ABytes (AuthorityKeyId cert)]) ;;
  emit (EvPrintf "   OSCP Servers: %v\n" [AStrs (OCSPServer cert)]) ;;
  emit (EvPrintf "   CA Issuer URL: %v\n" [AStrs (IssuingCertificateURL cert)]) ;;
  emit (EvPrintf "   CRL Distribution: %v\n" [AStrs (CRLDistributionPoints cert)]) ;;
  emit (EvPrintf "   Policy OIDs: %v\n" [AInts (PolicyIdentifiers cert)]).

Definition printCertChainDetails (chain : list Certificate) : M unit :=
  emit (EvPrintf "## -------------- FULL Certificate Chain ----------------\n" []) ;;
  for_range_i 0 chain (fun i cert =>
    emit (EvPrintf "## Certificate at Depth: %d\n" [AInt i]) ;;
    printCertDetails cert).

Definition printVerifiedChains (chains : list (list Certificate)) : M unit :=
  for_range_i 0 chains (fun i row =>
    emit (EvPrintf "## Verified Certificate Chain %d:\n" [AInt i]) ;;
    for_range_i 0 row (fun j cert =>
      emit (EvPrintf "  %2d %v\n" [AInt j; AStr (Subject cert)]) ;;
      emit (EvPrintf "     %v\n" [AStr (Issuer cert)]))).

(** [RootCAs] is [None] while the field is nil (the system roots are then
    used); [log.Fatal] ends the run when a file cannot be loaded. *)
Definition getTLSConfig : M TLSConfig :=
  let servername := if nonempty (sni options) then sni options else "" in
  '(skipverify, rootcas) <-
    (if noverify options then ret (true, None)
     else if nonempty (cacert options) then
       emit (EvReadFile (cacert options)) ;;
       match ioutil_ReadFile env (cacert options) with
       | inl err => log_Fatal err
       | inr cacert => ret (false, Some (AppendCertsFromPEM env cacert))
       end
     else ret (false, None)) ;;
  certificates <-
    (if nonempty (clientcert options) then
       emit (EvLoadX509KeyPair (clientcert options) (clientkey options)) ;;
       match tls_LoadX509KeyPair env (clientcert options) (clientkey options) with
       | inl err => log_Fatal err
       | inr clientcreds => ret [clientcreds]
       end
     else ret []) ;;
  ret {| ServerName := servername;
         InsecureSkipVerify := skipverify;
         RootCAs := rootcas;
         Certificates := certificates |}.

Definition line_peer_certificate : Event := EvPrintln [AStr "   ## Peer Certificate:"].

Definition printTLSinfo (response : Response) : M unit :=
  match TLS response with
  | None => emit (EvPrintln [AStr "## TLS Connection Info: NONE"])
  | Some cs =>
      emit (EvPrintln [AStr "## TLS Connection Info:"]) ;;
      emit (EvPrintf "   TLS version: %s\n" [AStr (lookupZ TLSversion (TLSVersion cs))]) ;;
      emit (EvPrintf "   TLS Resumed: %v\n" [ABool (DidResume cs)]) ;;
      emit (EvPrintf "   TLS CipherSuite: %s\n"
              [AStr (tls_CipherSuiteName env (CipherSuite cs))]) ;;
      emit (EvPrintf "   TLS ALPN: %s\n" [AStr (NegotiatedProtocol cs)]) ;;
      emit (EvPrintf "   TLS SNI: %s\n" [AStr (ConnServerName cs)]) ;;
      if showcertchain options then
        printCertChainDetails (PeerCertificates cs) ;;
        printVerifiedChains (VerifiedChains cs)
      else if showcert options then
        emit line_peer_certificate ;;
        cert <- index (PeerCertificates cs) 0 ;;
        printCertDetails cert
      else ret tt
  end.

(* ================================================================= *)
(** ** The main program *)

Definition portMap (scheme : string) : string :=
  if String.eqb scheme "http" then "80"
  else if String.eqb scheme "https" then "443"
  else "".

(** Result structure *)
Record Result := {
  response : option Response;
  body : list byte;
  responsetime : Time;
  err : option Error
}.

(** [new(Result)]: every field at its zero value. *)
Definition new_Result : Result :=
  {| response := None; body := []; responsetime := 0; err := None |}.

Definition printStatus (response : Response) : M unit :=
  emit (EvPrintln [AStr "## HTTP Status:"]) ;;
  emit (EvPrintf "   HTTP Status: %d %s\n"
          [AInt (StatusCode response);
           AStr (http_StatusText env (StatusCode response))]) ;;
  emit (EvPrintf "   HTTP Protocol: %d %d %s\n"
          [AInt (ProtoMajor response); AInt (ProtoMinor response);
           AStr (Proto response)]) ;;
  emit (EvPrintf "   HTTP ContentLength: %d\n" [AInt (ContentLength response)]) ;;
  emit (EvPrintf "   HTTP Close: %v\n" [ABool (Close response)]) ;;
  emit (EvPrintf "   HTTP Uncompressed: %v\n" [ABool (Uncompressed response)]).

Definition printHeaders (header : Header) : M unit :=
  emit (EvPrintln [AStr "## HTTP Headers:"]) ;;
  for_range header (fun kv =>
    emit (EvPrintf "   %s: %s\n" [AStr (fst kv); AStr (Join (snd kv) ",")])) ;;
  emit (EvPrintln [AStr "## End of HTTP Headers."]).

(** [request.SetBasicAuth(username, password)] *)
Definition SetBasicAuth (request : Request) (u p : string) : Request :=
  {| Method := Method request; URL := URL request;
     ReqHeader := ReqHeader request; BasicAuth := Some (u, p) |}.

(** [h[key] = append(h[key], value)] on a header map. *)
Fixpoint header_append (h : Header) (key value : string) : Header :=
  match h with
  | [] => [(key, [value])]
  | (k, vs) :: h' =>
      if String.eqb k key then (k, (vs ++ [value])%list) :: h'
      else (k, vs) :: header_append h' key value
  end.


(** [http.Header.Add(key, value)] is [textproto.MIMEHeader.Add]: the
    value is appended to the values of the canonical form of the key. *)
Definition MIMEHeader_Add (h : Header) (key value : string) : Header :=
  header_append h (CanonicalMIMEHeaderKey key) value.

(** [request.Header.Add(key, val)] *)
Definition Header_Add (request : Request) (key val : string) : Request :=
  {| Method := Method request; URL := URL request;
     ReqHeader := MIMEHeader_Add (ReqHeader request) key val;
     BasicAuth := BasicAuth request |}.

(** [client.Do(request)]: the exchange up to the response headers. *)
Definition Do (client : Client) (request : Request) : M (Error + Response) :=
  fun t =>
    let '(d, r) := client_Do env t client request in
    ([EvDo client request], t + d, Ok r).

(** [ioutil.ReadAll(response.Body)] *)
Definition ReadAll (b : BodyStream) : M (list byte * option Error) :=
  fun t => ([EvReadAll], t + body_time b, Ok (body_data b, body_err b)).

(** [time.Since(t0)] *)
Definition time_Since (t0 : Time) : M Time :=
  t1 <- time_Now ;; ret (t1 - t0).

(** The first statement of [readResponse].  The request is shared by all
    attempts of a run; [SetBasicAuth] stores the same credentials in it
    every time. *)
Definition setAuth (request : Request) : Request :=
  if nonempty (username options)
  then SetBasicAuth request (username options) (password options)
  else request.

Definition readResponse (client : Client) (request : Request) : M Result :=
  let result := new_Result in
  let request := setAuth request in
  t0 <- time_Now ;;
  r <- Do client request ;;
  match r with
  | inl e =>
      ret {| response := response result; body := body result;
             responsetime := responsetime result; err := Some e |}
  | inr resp =>
      '(bytes, e) <- ReadAll (Body resp) ;;
      since <- time_Since t0 ;;
      emit EvBodyClose ;;
      ret {| response := Some resp; body := bytes;
             responsetime := since; err := e |}
  end.

(** [http.NewRequest(http.MethodGet, url, nil)] fails when the URL does
    not parse. *)
Definition http_NewRequest (url : string) : Error + Request :=
  match url_Parse env url with
  | inl e => inl e
  | inr _ => inr {| Method := "GET"; URL := url; ReqHeader := []; BasicAuth := None |}
  end.

(** The loop of [getRequest] over [options.headers]. *)
Fixpoint addHeaders (hs : list string) (request : Request) : M Request :=
  match hs with
  | [] => ret request
  | header :: hs' =>
      let tmp := SplitN_colon_2 header in
      key <- index tmp 0 ;;
      val <- index tmp 1 ;;
      addHeaders hs' (Header_Add request key val)
  end.

Definition getRequest (url : string) : M Request :=
  match http_NewRequest url with
  | inl e => log_Fatal e
  | inr request =>
      let request := Header_Add request "User-Agent" (useragent options) in
      addHeaders (headers options) request
  end.

Definition getClient (address : string) : M Client :=
  tlsconfig <- getTLSConfig ;;
  ret {| Timeout := timeout options;
         TLSClientConfig := tlsconfig;
         ForceAttemptHTTP2 := true;
         DialAddress := if nonempty address then Some address else None;
         CheckRedirectLast := noredirect options |}.

Definition addressString (ipaddress : IP) (port : string) : string :=
  if negb (contains_colon (ip_String env ipaddress))
  then ip_String env ipaddress ++ ":" ++ port
  else "[" ++ ip_String env ipaddress ++ "]" ++ ":" ++ port.

Definition url2addressport (urlstring : string) : Error + (string * string) :=
  match url_Parse env urlstring with
  | inl e => inl e
  | inr parsedurl =>
      let hostname := Hostname parsedurl in
      let port := Port parsedurl in
      let port := if String.eqb port "" then portMap (Scheme parsedurl) else port in
      inr (hostname, port)
  end.

Definition querySingle (request : Request) (address : string) : M unit :=
  client <- getClient address ;;
  result <- readResponse client request ;;
  match err result with
  | Some e => emit (EvPrintln [AErr e])
  | None =>
      match response result with
      | None => halt (Panicked "nil pointer dereference")
      | Some resp =>
          when (negb (bodyonly options))
            (emit (EvPrintf "## ResponseTime: %v\n" [AInt (responsetime result)]) ;;
             printTLSinfo resp ;;
             printStatus resp ;;
             printHeaders (RespHeader resp)) ;;
          when (printbody options || bodyonly options)
            (emit (EvPrintf "%s\n" [ABytes (body result)]))
      end
  end.

Definition isipv4 (ipaddress : IP) : bool :=
  match To4 ipaddress with Some _ => true | None => false end.

(** The loop of [getIpList]: [filteredlist] is the slice built so far. *)
Fixpoint filterLoop (iplist filteredlist : list IP) : list IP :=
  match iplist with
  | [] => filteredlist
  | ipaddress :: rest =>
      if ipv6only options && isipv4 ipaddress then filterLoop rest filteredlist
      else if ipv4only options && negb (isipv4 ipaddress) then filterLoop rest filteredlist
      else filterLoop rest (filteredlist ++ [ipaddress])%list
  end.

Definition getIpList (hostname : string) : M (list IP) :=
  emit (EvLookupIP hostname) ;;
  match net_LookupIP env hostname with
  | inl e => log_Fatal e
  | inr iplist =>
      if negb (ipv6only options || ipv4only options) then ret iplist
      else ret (filterLoop iplist [])
  end.

Definition prologue (urlstring hostname port : string) (iplist : list IP) : M unit :=
  emit (EvPrintf "URL: %s\nHostname: %s\nPort: %s\n"
          [AStr urlstring; AStr hostname; AStr port]) ;;
  emit (EvPrintln [AStr "Addresses:"]) ;;
  for_range iplist (fun ipaddress => emit (EvPrintf "\t%s\n" [AIP ipaddress])).

Definition line_connect (ipaddress : IP) (port : string) : Event :=
  EvPrintf "\nCONNECT: %s %s ..\n" [AIP ipaddress; AStr port].

(** The loop of [main] over the addresses. *)
Definition queryAll (request : Request) (port : string) (iplist : list IP) : M unit :=
  for_range iplist (fun ipaddress =>
    emit (line_connect ipaddress port) ;;
    querySingle request (addressString ipaddress port)).

(** The body of [main] after [doFlags] has filled in [options]. *)
Definition run (urlstring : string) : M unit :=
  match url2addressport urlstring with
  | inl e => log_Fatal e
  | inr (hostname, port) =>
      iplist <- getIpList hostname ;;
      when (negb (bodyonly options)) (prologue urlstring hostname port iplist) ;;
      request <- getRequest urlstring ;;
      if queryall options then queryAll request port iplist
      else
        emit (EvPrintln []) ;;
        querySingle request ""
  end.

End Program.

Definition main (env : Env) (f : Flags) : M unit :=
  '(options, urlstring) <- doFlags f ;;
  run env options urlstring.

(* ================================================================= *)
(** ** Observations on traces *)

(** A computation that only prints: it returns, takes no time, and its
    output does not depend on when it starts. *)
Definition prints (m : M unit) (out : list Event) : Prop :=
  forall t, m t = (out, t, Ok tt).

(** [prints_only P m]: [m] only prints, and every event it causes
    satisfies [P]. *)
Definition prints_only (P : Event -> Prop) (m : M unit) : Prop :=
  exists out, prints m out /\ Forall P out.

Definition is_printf (e : Event) : Prop :=
  match e with EvPrintf _ _ => True | _ => False end.

(** The lines with which [printTLSinfo] starts for a secure exchange. *)
Definition session_lines (env : Env) (cs : ConnectionState) : list Event :=
  [ EvPrintln [AStr "## TLS Connection Info:"];
    EvPrintf "   TLS version: %s\n" [AStr (lookupZ TLSversion (TLSVersion cs))];
    EvPrintf "   TLS Resumed: %v\n" [ABool (DidResume cs)];
    EvPrintf "   TLS CipherSuite: %s\n"
      [AStr (tls_CipherSuiteName env (CipherSuite cs))];
    EvPrintf "   TLS ALPN: %s\n" [AStr (NegotiatedProtocol cs)];
    EvPrintf "   TLS SNI: %s\n" [AStr (ConnServerName cs)] ].

Definition is_print (e : Event) : Prop :=
  match e with EvPrintf _ _ | EvPrintln _ => True | _ => False end.

(** Events that touch the network. *)
Definition is_network (e : Event) : bool :=
  match e with
  | EvLookupIP _ | EvDo _ _ | EvReadAll => true
  | _ => false
  end.

(** The HTTP exchanges of a trace: the client and request of every
    [client.Do], in order. *)
Fixpoint attempts (tr : list Event) : list (Client * Request) :=
  match tr with
  | [] => []
  | EvDo c r :: tr' => (c, r) :: attempts tr'
  | _ :: tr' => attempts tr'
  end.

(** The client one turn of the loop of [main] builds for the address
    [ip]: it dials the text of [ip] and the port joined by a colon, the
    text of [ip] in brackets when it has a colon itself, whatever address
    the transport asks for. *)
Definition turn_client (env : Env) (o : Options) (cfg : TLSConfig)
           (port : string) (ip : IP) : Client :=
  {| Timeout := timeout o;
     TLSClientConfig := cfg;
     ForceAttemptHTTP2 := true;
     DialAddress :=
       Some (if contains_colon (ip_String env ip)
             then "[" ++ ip_String env ip ++ "]:" ++ port
             else ip_String env ip ++ ":" ++ port);
     CheckRedirectLast := noredirect o |}.

(** What the turn of the loop of [main] for the address [ip] leaves in
    the trace when it starts at [t], and the time [t'] at which it ends:
    the CONNECT line, the set-up of the client, one [client.Do] of the
    request [r] with that client, and the report on this very exchange.
    When the exchange fails, or the body cannot be read, the report is
    the error, printed, and nothing else. *)
Definition turn (env : Env) (o : Options) (setup : list Event) (cfg : TLSConfig)
           (r : Request) (port : string)
           (t : Time) (ip : IP) (block : list Event) (t' : Time) : Prop :=
  exists rest,
    block = (EvPrintf "\nCONNECT: %s %s ..\n" [AIP ip; AStr port]
             :: setup ++ EvDo (turn_client env o cfg port ip) r :: rest)%list /\
    match client_Do env t (turn_client env o cfg port ip) r with
    | (d, inl e) => rest = [EvPrintln [AErr e]] /\ t' = t + d
    | (d, inr resp) =>
        t' = t + d + body_time (Body resp) /\
        match body_err (Body resp) with
        | Some e => rest = [EvReadAll; EvBodyClose; EvPrintln [AErr e]]
        | None => exists out, rest = (EvReadAll :: EvBodyClose :: out)%list /\
                              Forall is_print out
        end
    end.

(** The turns of the loop, one after the other: each starts when the one
    before it has ended. *)
Inductive turns (env : Env) (o : Options) (setup : list Event) (cfg : TLSConfig)
          (r : Request) (port : string)
  : Time -> list IP -> list (list Event) -> Time -> Prop :=
| turns_nil t : turns env o setup cfg r port t [] [] t
| turns_cons t ip block t1 rest blocks t' :
    turn env o setup cfg r port t ip block t1 ->
    turns env o setup cfg r port t1 rest blocks t' ->
    turns env o setup cfg r port t (ip :: rest) (block :: blocks) t'.

(** The lines of the prologue. *)
Definition prologue_lines (urlstring hostname port : string) (iplist : list IP)
  : list Event :=
  (EvPrintf "URL: %s\nHostname: %s\nPort: %s\n"
     [AStr urlstring; AStr hostname; AStr port]
   :: EvPrintln [AStr "Addresses:"]
   :: map (fun ipaddress => EvPrintf "\t%s\n" [AIP ipaddress]) iplist)%list.

(** The entries of a slice with their indices, counted from [i]. *)
Fixpoint enumerate {A} (i : Z) (l : list A) : list (Z * A) :=
  match l with
  | [] => []
  | x :: l' => (i, x) :: enumerate (i + 1) l'
  end.

(** The lines with the details of one certificate. *)
Definition cert_lines (env : Env) (cert : Certificate) : list Event :=
  ([ EvPrintf "   X509 version: %d\n" [AInt (Version cert)];
     EvPrintf "   Serial#: %x\n" [AInt (SerialNumber cert)];
     EvPrintf "   Subject: %v\n" [AStr (Subject cert)];
     EvPrintf "   Issuer:  %v\n" [AStr (Issuer cert)] ]
   ++ map (fun n => EvPrintf "   SAN dNSName: %s\n" [AStr n]) (DNSNames cert)
   ++ map (fun a => EvPrintf "   SAN IPaddress: %s\n" [AIP a]) (IPAddresses cert)
   ++ map (fun a => EvPrintf "   SAN emailAddress: %s\n" [AStr a])
          (EmailAddresses cert)
   ++ map (fun u => EvPrintf "   SAN URI: %v\n" [AStr u]) (URIs cert)
   ++ [ EvPrintf "   Signature Algorithm: %v\n" [AStr (SignatureAlgorithm cert)];
        EvPrintf "   PublicKey Algorithm: %v %d-Bits\n"
          [AStr (PublicKeyAlgorithm cert);
           AInt (KeySizeInBits (CertPublicKey cert))];
        EvPrintf "   Inception:  %v\n" [AInt (NotBefore cert)];
        EvPrintf "   Expiration: %v\n" [AInt (NotAfter cert)];
        EvPrintf "   KU: %v\n" [AStr (KU2Strings env (CertKeyUsage cert))];
        EvPrintf "   EKU: %v\n" [AStr (EKU2Strings (ExtKeyUsage cert))] ]
   ++ (if BasicConstraintsValid cert
       then [EvPrintf "   Is CA?: %v\n" [ABool (IsCA cert)]] else [])
   ++ [ EvPrintf "   SKI: %x\n" [ABytes (SubjectKeyId cert)];
        EvPrintf "   AKI: %x\n" [ABytes (AuthorityKeyId cert)];
        EvPrintf "   OSCP Servers: %v\n" [AStrs (OCSPServer cert)];
        EvPrintf "   CA Issuer URL: %v\n" [AStrs (IssuingCertificateURL cert)];
        EvPrintf "   CRL Distribution: %v\n" [AStrs (CRLDistributionPoints cert)];
        EvPrintf "   Policy OIDs: %v\n" [AInts (PolicyIdentifiers cert)] ])%list.

(** The rendering of the whole chain of the peer: the heading, then for
    every certificate, in the order of the chain, its depth (from 0) and
    its details. *)
Definition chain_lines (env : Env) (chain : list Certificate) : list Event :=
  (EvPrintf "## -------------- FULL Certificate Chain ----------------\n" []
   :: flat_map (fun ic =>
                  EvPrintf "## Certificate at Depth: %d\n" [AInt (fst ic)]
                  :: cert_lines env (snd ic))
               (enumerate 0 chain))%list.

(** The rendering of the verified chains: for every chain its number
    (from 0), then for every certificate of it, in order, its position
    with its subject, and its issuer. *)
Definition verified_lines (chains : list (list Certificate)) : list Event :=
  flat_map (fun ir =>
              EvPrintf "## Verified Certificate Chain %d:\n" [AInt (fst ir)]
              :: flat_map (fun jc =>
                             [ EvPrintf "  %2d %v\n"
                                 [AInt (fst jc); AStr (Subject (snd jc))];
                               EvPrintf "     %v\n" [AStr (Issuer (snd jc))] ])
                          (enumerate 0 (snd ir)))
           (enumerate 0 chains).

(** Every secure response of the environment comes with the certificate
    of the peer (a TLS client of Go's [crypto/tls] always has one after
    the handshake). *)
Definition leaf_present (env : Env) : Prop :=
  forall t c r resp cs,
    snd (client_Do env t c r) = inr resp -> TLS resp = Some cs ->
    PeerCertificates cs <> [].

(** How long [client.Do] takes until the response headers are there. *)
Definition header_latency (env : Env) (o : Options) (c : Client) (r : Request)
           (t : Time) : Time :=
  fst (client_Do env t c (setAuth o r)).

(* ================================================================= *)
(** ** A concrete scenario

    The host [example.test] resolves to one IPv4 and one IPv6 address.
    The TLS handshake with the IPv4 address fails; the IPv6 address
    answers, and reading its body takes longer than its headers. *)

Module Scenario.

Definition url : string := "https://example.test/".

(** A second host, with an IPv6 address only. *)
Definition url6 : string := "https://ipv6.example.test/".

(** 192.0.2.1 and 2001:db8::1 *)
Definition ip4 : IP := [xc0; x00; x02; x01].
Definition ip6 : IP :=
  [x20; x01; x0d; xb8; x00; x00; x00; x00; x00; x00; x00; x00; x00; x00; x00; x01].

Definition leaf : Certificate :=
  {| Version := 3; SerialNumber := 4660;
     Subject := "CN=example.test"; Issuer := "CN=Test CA";
     DNSNames := ["example.test"]; IPAddresses := []; EmailAddresses := [];
     URIs := []; SignatureAlgorithm := "ECDSA-SHA256";
     PublicKeyAlgorithm := "ECDSA"; CertPublicKey := PkECDSA 5 9;
     NotBefore := 0; NotAfter := 100; CertKeyUsage := 5; ExtKeyUsage := [1];
     BasicConstraintsValid := true; IsCA := false;
     SubjectKeyId := [x01]; AuthorityKeyId := [x02];
     OCSPServer := []; IssuingCertificateURL := [];
     CRLDistributionPoints := []; PolicyIdentifiers := [] |}.

Definition session : ConnectionState :=
  {| TLSVersion := 0x0304; DidResume := false; CipherSuite := 0x1301;
     NegotiatedProtocol := "h2"; ConnServerName := "example.test";
     PeerCertificates := [leaf]; VerifiedChains := [[leaf]] |}.

Definition answer (b : BodyStream) : Response :=
  {| StatusCode := 200; Proto := "HTTP/2.0"; ProtoMajor := 2; ProtoMinor := 0;
     ContentLength := 2; Close := false; Uncompressed := false;
     RespHeader := [("Content-Type", ["text/plain"])];
     Body := b; TLS := Some session |}.

Definition whole_body : BodyStream :=
  {| body_data := [x68; x69]; body_err := None; body_time := 15 |}.

Definition broken_body : BodyStream :=
  {| body_data := [x68]; body_err := Some "unexpected EOF"; body_time := 15 |}.

Definition handshake_failure : Error := "remote error: tls: handshake failure".

(** The network: [b] is the body sent by the address that answers. *)
Definition env (b : BodyStream) : Env :=
  {| url_Parse := fun u =>
       if String.eqb u url
       then inr {| Scheme := "https"; Hostname := "example.test"; Port := "" |}
       else if String.eqb u url6
       then inr {| Scheme := "https"; Hostname := "ipv6.example.test"; Port := "" |}
       else inl "parse error";
     net_LookupIP := fun h =>
       if String.eqb h "example.test" then inr [ip4; ip6]
       else if String.eqb h "ipv6.example.test" then inr [ip6]
       else inl "no such host";
     ioutil_ReadFile := fun _ => inl "no such file or directory";
     AppendCertsFromPEM := fun _ => [];
     tls_LoadX509KeyPair := fun _ _ => inl "no such file or directory";
     ip_String := fun ip =>
       match To4 ip with Some _ => "192.0.2.1" | None => "2001:db8::1" end;
     client_Do := fun _ c _ =>
       match DialAddress c with
       | Some a =>
           if String.eqb a "192.0.2.1:443" then (10, inl handshake_failure)
           else (10, inr (answer b))
       | None => (10, inr (answer b))
       end;
     range_KeyUsage := KeyUsage;
     tls_CipherSuiteName := fun _ => "TLS_AES_128_GCM_SHA256";
     http_StatusText := fun _ => "OK" |}.

(** The client and the request of a run without options. *)
Definition client : Client :=
  {| Timeout := defaultTimeout;
     TLSClientConfig := {| ServerName := ""; InsecureSkipVerify := false;
                           RootCAs := None; Certificates := [] |};
     ForceAttemptHTTP2 := true; DialAddress := None;
     CheckRedirectLast := false |}.

Definition request : Request :=
  {| Method := "GET"; URL := url; ReqHeader := [("User-Agent", [defaultAgent])];
     BasicAuth := None |}.

(** The command line [gohttp [-4] [-6] [-queryall] [-header h]..
    [-authbasic a] [-showcert] [-showcertchain] [-noverify] [-cacert p] u],
    every other flag at its default. *)
Definition flags (u : string) (six four qall : bool) (hdrs : list string)
           (auth : string) (cert chain nover : bool) (ca : string) : Flags :=
  {| flag_h := false; flag_6 := six; flag_4 := four; flag_t := defaultTimeout;
     flag_printbody := false; flag_bodyonly := false; flag_queryall := qall;
     flag_noredirect := false; flag_sni := ""; flag_header := hdrs;
     flag_cacert := ca; flag_clientcert := ""; flag_clientkey := "";
     flag_authbasic := auth; flag_showcert := cert;
     flag_showcertchain := chain; flag_noverify := nover;
     flag_Args := [u] |}.

(** The options [doFlags] leaves for such a command line (it forces
    [queryall] and [noredirect] itself). *)
Definition options (six four qall : bool) (hdrs : list string)
           (cert chain nover : bool) (ca : string) : Options :=
  let o := options_of_flags (flags url six four qall hdrs "" cert chain nover ca) in
  let o := if six || four then set_queryall o true else o in
  if queryall o then set_noredirect o true else o.

End Scenario.

(* ================================================================= *)
(** ** options.go, the earlier version with useV6 and useV4

    The file also holds the version of [doFlags] that came before the
    family flags implied [queryall]: it has the flags [-status], [-header]
    and [-body], no [-bodyonly] and no repeated [-header] for request
    headers, and it checks the number of arguments before the family
    flags. *)

Module Earlier.

Record Options := {
  useV6 : bool;             (* Use only IPv6 *)
  useV4 : bool;             (* Use only IPv4 *)
  timeout : Time;           (* connection timeout *)
  retries : Z;              (* number of retries *)
  printstatus : bool;       (* Print status and TLS info *)
  printheader : bool;       (* Print HTTP headers *)
  printbody : bool;         (* Print body *)
  queryall : bool;          (* Query all server addresses *)
  sni : string;             (* Server Name Indication option *)
  cacert : string;          (* File containing PEM format CA certs *)
  clientcert : string;      (* File containing PEM format client cert *)
  clientkey : string;       (* File containing PEM format client key *)
  username : string;
  password : string;
  showcert : bool;          (* Show peer certificate *)
  showcertchain : bool;     (* Show peer certificate chain *)
  noredirect : bool;        (* Don't follow redirects *)
  noverify : bool;          (* Don't verify server certificate *)
  useragent : string
}.

Record Flags := {
  flag_h : bool;
  flag_6 : bool;
  flag_4 : bool;
  flag_t : Time;
  flag_status : bool;
  flag_header : bool;
  flag_body : bool;
  flag_queryall : bool;
  flag_noredirect : bool;
  flag_sni : string;
  flag_cacert : string;
  flag_clientcert : string;
  flag_clientkey : string;
  flag_authbasic : string;
  flag_showcert : bool;
  flag_showcertchain : bool;
  flag_noverify : bool;
  flag_Args : list string
}.

Definition options_of_flags (f : Flags) : Options :=
  {| useV6 := flag_6 f;
     useV4 := flag_4 f;
     timeout := flag_t f;
     retries := defaultRetries;
     printstatus := flag_status f;
     printheader := flag_header f;
     printbody := flag_body f;
     queryall := flag_queryall f;
     sni := flag_sni f;
     cacert := flag_cacert f;
     clientcert := flag_clientcert f;
     clientkey := flag_clientkey f;
     username := "";
     password := "";
     showcert := flag_showcert f;
     showcertchain := flag_showcertchain f;
     noredirect := flag_noredirect f;
     noverify := flag_noverify f;
     useragent := defaultAgent |}.

Definition set_credentials (o : Options) (u p : string) : Options :=
  {| useV6 := useV6 o; useV4 := useV4 o; timeout := timeout o;
     retries := retries o; printstatus := printstatus o;
     printheader := printheader o; printbody := printbody o;
     queryall := queryall o; sni := sni o;
     cacert := cacert o; clientcert := clientcert o; clientkey := clientkey o;
     username := u; password := p;
     showcert := showcert o; showcertchain := showcertchain o;
     noredirect := noredirect o; noverify := noverify o;
     useragent := useragent o |}.

Definition set_noredirect (o : Options) (b : bool) : Options :=
  {| useV6 := useV6 o; useV4 := useV4 o; timeout := timeout o;
     retries := retries o; printstatus := printstatus o;
     printheader := printheader o; printbody := printbody o;
     queryall := queryall o; sni := sni o;
     cacert := cacert o; clientcert := clientcert o; clientkey := clientkey o;
     username := username o; password := password o;
     showcert := showcert o; showcertchain := showcertchain o;
     noredirect := b; noverify := noverify o;
     useragent := useragent o |}.

Definition NArg (f : Flags) : nat := List.length (flag_Args f).

Definition msg_arguments : string :=
  "Error: incorrect number of arguments\n".
Definition msg_both_families : string :=
  "Error: cannot specify both -4 and -6.\n".

Definition doFlags (f : Flags) : M (Options * string) :=
  let options := options_of_flags f in
  options <-
    (if nonempty (flag_authbasic f) then
       let tmp := SplitN_colon_2 (flag_authbasic f) in
       u <- index tmp 0 ;;
       p <- index tmp 1 ;;
       ret (set_credentials options u p)
     else ret options) ;;
  let options :=
    if queryall options then set_noredirect options true else options in
  (if flag_h f || negb (NArg f =? 1)%nat then
     when (negb (NArg f =? 0)%nat) (emit (EvStderr msg_arguments)) ;;
     emit EvUsage ;;
     halt (Exited 4)
   else ret tt) ;;
  (if useV4 options && useV6 options then
     emit (EvStderr msg_both_families) ;;
     emit EvUsage ;;
     halt (Exited 4)
   else ret tt) ;;
  url <- index (flag_Args f) 0 ;;
  ret (options, url).

(** The command line [gohttp [-4] [-6] [-queryall] [-noredirect]
    [-authbasic a] args..], every other flag at its default. *)
Definition flags (six four qall nored : bool) (auth : string)
           (args : list string) : Flags :=
  {| flag_h := false; flag_6 := six; flag_4 := four; flag_t := defaultTimeout;
     flag_status := true; flag_header := true; flag_body := false;
     flag_queryall := qall; flag_noredirect := nored; flag_sni := "";
     flag_cacert := ""; flag_clientcert := ""; flag_clientkey := "";
     flag_authbasic := auth; flag_showcert := false;
     flag_showcertchain := false; flag_noverify := false;
     flag_Args := args |}.

End Earlier.

(* ================================================================= *)
(** ** Further scenarios *)

Module Cases.

(** The network of [Scenario] with a resolver that knows no host. *)
Definition offline : Env :=
  let e := Scenario.env Scenario.whole_body in
  {| url_Parse := url_Parse e;
     net_LookupIP := fun _ => inl "no such host";
     ioutil_ReadFile := ioutil_ReadFile e;
     AppendCertsFromPEM := AppendCertsFromPEM e;
     tls_LoadX509KeyPair := tls_LoadX509KeyPair e;
     ip_String := ip_String e;
     client_Do := client_Do e;
     range_KeyUsage := range_KeyUsage e;
     tls_CipherSuiteName := tls_CipherSuiteName e;
     http_StatusText := http_StatusText e |}.



(** The options of [Scenario] with [-bodyonly]. *)
Definition bodyonly_options : Options :=
  let o := Scenario.options false false false [] false false false "" in
  {| ipv6only := ipv6only o; ipv4only := ipv4only o; timeout := timeout o;
     retries := retries o; printbody := printbody o; bodyonly := true;
     queryall := queryall o; sni := sni o; headers := headers o;
     cacert := cacert o; clientcert := clientcert o; clientkey := clientkey o;
     username := username o; password := password o;
     showcert := showcert o; showcertchain := showcertchain o;
     noredirect := noredirect o; noverify := noverify o;
     useragent := useragent o |}.

End Cases.

(* ================================================================= *)
(** ** Reasoning about runs *)

Lemma bind_Ok {A B} (m : M A) (f : A -> M B) t tr t' b :
  bind m f t = (tr, t', Ok b) ->
  exists tr1 t1 a tr2,
    m t = (tr1, t1, Ok a) /\ f a t1 = (tr2, t', Ok b) /\ tr = (tr1 ++ tr2)%list.
Proof.
  unfold bind. destruct (m t) as [[tr1 t1] [a | s]]; [| discriminate].
  destruct (f a t1) as [[tr2 t2] r] eqn:Hf. intros H. inversion H; subst.
  exists tr1, t1, a, tr2. auto.
Qed.

Lemma bind_step {A B} (m : M A) (f : A -> M B) t tr1 t1 a :
  m t = (tr1, t1, Ok a) ->
  bind m f t = ((tr1 ++ trace_of (f a t1))%list, time_of (f a t1), result_of (f a t1)).
Proof.
  unfold bind, trace_of, time_of, result_of. intros ->.
  destruct (f a t1) as [[tr2 t2] r]. reflexivity.
Qed.

Lemma bind_halt {A B} (m : M A) (f : A -> M B) t tr1 t1 s :
  m t = (tr1, t1, Halt s) -> bind m f t = (tr1, t1, Halt s).
Proof. unfold bind. intros ->. reflexivity. Qed.

Lemma run_eta {A} (r : list Event * Time * Res A) :
  r = (trace_of r, time_of r, result_of r).
Proof. destruct r as [[tr t] x]. reflexivity. Qed.

Lemma prints_emit e : prints (emit e) [e].
Proof. intro t. reflexivity. Qed.

Lemma prints_ret : prints (ret tt) [].
Proof. intro t. reflexivity. Qed.

Lemma prints_bind (m : M unit) (k : unit -> M unit) o1 o2 :
  prints m o1 -> prints (k tt) o2 -> prints (bind m k) (o1 ++ o2)%list.
Proof.
  intros H1 H2 t. unfold bind. rewrite H1, H2. reflexivity.
Qed.

Lemma prints_when b m o :
  prints m o -> prints (when b m) (if b then o else []).
Proof. destruct b; simpl; auto using prints_ret. Qed.

Lemma prints_for_range {A} (l : list A) (body : A -> M unit) (out : A -> list Event) :
  (forall x, prints (body x) (out x)) ->
  prints (for_range l body) (flat_map out l).
Proof.
  intros Hb. induction l as [| x l IH]; simpl.
  - apply prints_ret.
  - apply prints_bind; auto.
Qed.

Lemma prints_for_range_i {A} (l : list A) (body : Z -> A -> M unit)
      (out : Z -> A -> list Event) :
  (forall i x, prints (body i x) (out i x)) ->
  forall i, exists o, prints (for_range_i i l body) o /\
    (forall e, In e o -> exists j x, In x l /\ In e (out j x)).
Proof.
  intros Hb. induction l as [| x l IH]; intros i; simpl.
  - exists []. split; [apply prints_ret | intros e []].
  - destruct (IH (i + 1)) as [o [Ho Hin]].
    exists (out i x ++ o)%list. split.
    + apply prints_bind; auto.
    + intros e He. apply in_app_or in He. destruct He as [He | He].
      * exists i, x. auto.
      * destruct (Hin e He) as [j [y [Hy Hj]]]. exists j, y. auto.
Qed.

Lemma attempts_app tr1 tr2 :
  attempts (tr1 ++ tr2) = (attempts tr1 ++ attempts tr2)%list.
Proof.
  induction tr1 as [| e tr1 IH]; simpl; [reflexivity |].
  destruct e; simpl; rewrite IH; reflexivity.
Qed.

(* ----------------------------------------------------------------- *)
(** *** Strings *)

Lemma cut_colon_contains s :
  contains_colon s = false <-> cut_colon s = None.
Proof.
  induction s as [| c s IH]; simpl; [tauto |].
  destruct (Ascii.eqb c ":"); simpl.
  - split; discriminate.
  - destruct (cut_colon s) as [[a b] |].
    + split; [| discriminate]. intros H. apply IH in H. discriminate.
    + split; auto. intros _. apply IH. reflexivity.
Qed.

Lemma SplitN_without_colon s :
  contains_colon s = false -> SplitN_colon_2 s = [s].
Proof.
  intros H. apply cut_colon_contains in H. unfold SplitN_colon_2. rewrite H. reflexivity.
Qed.

Lemma SplitN_with_colon s :
  contains_colon s = true -> exists a b, SplitN_colon_2 s = [a; b].
Proof.
  intros H. unfold SplitN_colon_2.
  destruct (cut_colon s) as [[a b] |] eqn:Hc; [eauto |].
  apply cut_colon_contains in Hc. congruence.
Qed.

Lemma index_Ok {A} (s : list A) i t tr t' a :
  index s i t = (tr, t', Ok a) -> nth_error s i = Some a /\ tr = [] /\ t' = t.
Proof.
  unfold index. destruct (nth_error s i); intros H; inversion H; auto.
Qed.

(* ----------------------------------------------------------------- *)
(** *** doFlags *)

(** What [doFlags] has done when it returns. *)
Lemma doFlags_Ok f t tr t' o url :
  doFlags f t = (tr, t', Ok (o, url)) ->
  ipv6only o = flag_6 f /\ ipv4only o = flag_4 f /\
  flag_6 f && flag_4 f = false /\
  queryall o = (flag_6 f || flag_4 f || flag_queryall f) /\
  noredirect o = (flag_6 f || flag_4 f || flag_queryall f || flag_noredirect f) /\
  headers o = flag_header f /\
  flag_Args f = [url] /\ tr = [] /\ t' = t.
Proof.
  unfold doFlags. intros H.
  apply bind_Ok in H. destruct H as (tr1 & t1 & o1 & tr2 & H1 & H & ->).
  assert (Ho1 : ipv6only o1 = flag_6 f /\ ipv4only o1 = flag_4 f /\
                queryall o1 = flag_queryall f /\
                noredirect o1 = flag_noredirect f /\
                headers o1 = flag_header f /\ tr1 = [] /\ t1 = t).
  { destruct (nonempty (flag_authbasic f)).
    - apply bind_Ok in H1. destruct H1 as (? & ? & u & ? & Hu & H1 & ->).
      apply bind_Ok in H1. destruct H1 as (? & ? & p & ? & Hp & H1 & ->).
      apply index_Ok in Hu. destruct Hu as (_ & -> & ->).
      apply index_Ok in Hp. destruct Hp as (_ & -> & ->).
      inversion H1; subst. simpl. tauto.
    - inversion H1; subst. simpl. tauto. }
  destruct Ho1 as (E6 & E4 & Eq & Er & Eh & -> & ->).
  apply bind_Ok in H. destruct H as (tr3 & t3 & [] & tr4 & H3 & H & ->).
  rewrite E6, E4 in *.
  destruct (flag_6 f && flag_4 f) eqn:Hboth; [discriminate |].
  inversion H3; subst. clear H3.
  apply bind_Ok in H. destruct H as (tr5 & t5 & [] & tr6 & H5 & H & ->).
  destruct (flag_h f || negb (NArg f =? 1)%nat) eqn:Hh.
  { exfalso. destruct (negb (NArg f =? 0)%nat); discriminate. }
  inversion H5; subst. clear H5.
  apply bind_Ok in H. destruct H as (tr7 & t7 & u & tr8 & H7 & H & ->).
  apply orb_false_iff in Hh. destruct Hh as [_ Hn]. apply negb_false_iff in Hn.
  apply Nat.eqb_eq in Hn. unfold NArg in Hn.
  destruct (flag_Args f) as [| a [| b l]]; simpl in Hn; try discriminate.
  apply index_Ok in H7. destruct H7 as (Ha & -> & ->).
  simpl in Ha. inversion Ha; subst. inversion H; subst. clear H Ha.
  destruct (flag_6 f), (flag_4 f); simpl in *; try discriminate;
    rewrite ?Eq, ?Er, ?Eh; simpl;
    destruct (flag_queryall f); simpl; rewrite ?Er; auto 10.
Qed.

(** C5: whenever [doFlags] returns a configuration, a family filter
    ([ipv4only] or [ipv6only]) in it comes with [queryall], and [queryall]
    comes with [noredirect] (redirects are not followed). *)
Theorem doFlags_family_queryall_noredirect f t tr t' o url :
  doFlags f t = (tr, t', Ok (o, url)) ->
  (ipv4only o || ipv6only o = true -> queryall o = true) /\
  (queryall o = true -> noredirect o = true).
Proof.
  intros H. apply doFlags_Ok in H.
  destruct H as (E6 & E4 & _ & Eq & Er & _).
  rewrite E6, E4, Eq, Er.
  destruct (flag_6 f), (flag_4 f), (flag_queryall f); simpl; split;
    auto; discriminate.
Qed.

Lemma doFlags_family_queryall_noredirect_witness :
  let o := Scenario.options false true false [] false false false "" in
  doFlags (Scenario.flags Scenario.url false true false [] "" false false false "") 0
    = ([], 0, Ok (o, Scenario.url)) /\
  (ipv4only o || ipv6only o = true -> queryall o = true) /\
  (queryall o = true -> noredirect o = true).
Proof.
  split; [reflexivity |].
  apply (doFlags_family_queryall_noredirect
           (Scenario.flags Scenario.url false true false [] "" false false false "")
           0 [] 0 _ Scenario.url).
  reflexivity.
Defined.

(* ----------------------------------------------------------------- *)
(** *** Both family filters *)

(** [doFlags] stops before it returns when both [-4] and [-6] are given:
    with [os.Exit(4)] after the error message, or earlier, in the split of
    a [-authbasic] value that has no colon. *)
Lemma doFlags_both_families f t :
  flag_6 f = true -> flag_4 f = true ->
  (nonempty (flag_authbasic f) = true /\ contains_colon (flag_authbasic f) = false /\
   doFlags f t = ([], t, Halt (Panicked "index out of range")))
  \/
  ((nonempty (flag_authbasic f) = false \/ contains_colon (flag_authbasic f) = true) /\
   doFlags f t = ([EvPrintf msg_both_families []; EvUsage], t, Halt (Exited 4))).
Proof.
  intros H6 H4. unfold doFlags.
  destruct (nonempty (flag_authbasic f)) eqn:Hne.
  - destruct (contains_colon (flag_authbasic f)) eqn:Hc.
    + right. split; [auto |].
      destruct (SplitN_with_colon _ Hc) as (a & b & ->).
      unfold bind; simpl. rewrite H6, H4. reflexivity.
    + left. repeat split.
      rewrite (SplitN_without_colon _ Hc). reflexivity.
  - right. split; [auto |].
    unfold bind; simpl. rewrite H6, H4. reflexivity.
Qed.

(** C9: when both the ipv4-only and the ipv6-only flag are set, [main]
    does not get past [doFlags]: the run stops there, and nothing that
    touches the network (resolution, exchange, body read) has happened.
    Unless the [-authbasic] value is malformed, it stops with the error
    message, the usage text and exit status 4. *)
Theorem both_families_rejected env f t :
  flag_6 f = true -> flag_4 f = true ->
  (exists s, result_of (main env f t) = Halt s) /\
  existsb is_network (trace_of (main env f t)) = false /\
  (nonempty (flag_authbasic f) = false \/ contains_colon (flag_authbasic f) = true ->
   main env f t = ([EvPrintf msg_both_families []; EvUsage], t, Halt (Exited 4))).
Proof.
  intros H6 H4. unfold main.
  destruct (doFlags_both_families f t H6 H4) as [(Hne & Hc & E) | (Hok & E)].
  - rewrite (bind_halt _ _ _ _ _ _ E). simpl. repeat split; eauto.
    intros [Hn | Hcc]; congruence.
  - rewrite (bind_halt _ _ _ _ _ _ E). simpl. repeat split; eauto.
Qed.

Lemma both_families_rejected_witness :
  let f := Scenario.flags Scenario.url true true false [] "" false false false "" in
  let r := main (Scenario.env Scenario.whole_body) f 0 in
  (exists s, result_of r = Halt s) /\
  existsb is_network (trace_of r) = false /\
  (nonempty (flag_authbasic f) = false \/ contains_colon (flag_authbasic f) = true ->
   r = ([EvPrintf msg_both_families []; EvUsage], 0, Halt (Exited 4))).
Proof.
  apply (both_families_rejected (Scenario.env Scenario.whole_body)
           (Scenario.flags Scenario.url true true false [] "" false false false "") 0);
    reflexivity.
Defined.

(* ----------------------------------------------------------------- *)
(** *** getIpList *)

(** The addresses the loop of [getIpList] keeps. *)
Lemma filterLoop_filter o iplist filteredlist :
  filterLoop o iplist filteredlist =
  (filteredlist ++
   filter (fun ip => negb (ipv6only o && isipv4 ip)
                     && negb (ipv4only o && negb (isipv4 ip))) iplist)%list.
Proof.
  revert filteredlist. induction iplist as [| ip rest IH]; intros acc; simpl.
  - rewrite app_nil_r. reflexivity.
  - destruct (ipv6only o && isipv4 ip); simpl; [apply IH |].
    destruct (ipv4only o && negb (isipv4 ip)); simpl; [apply IH |].
    rewrite IH, <- app_assoc. reflexivity.
Qed.

(** C8: when the lookup succeeds, [getIpList] returns the entries of the
    resolved list that match the requested family, in the order of the
    resolved list: with [ipv4only] those that have a 4-byte form
    ([To4] is not nil), with [ipv6only] those that have none, and the
    whole list when no family is requested. *)
Theorem getIpList_family_filter env o hostname iplist t :
  net_LookupIP env hostname = inr iplist ->
  exists filtered,
    getIpList env o hostname t = ([EvLookupIP hostname], t, Ok filtered) /\
    (ipv4only o = true -> ipv6only o = false ->
     filtered = filter (fun ip => match To4 ip with Some _ => true | None => false end)
                       iplist) /\
    (ipv6only o = true -> ipv4only o = false ->
     filtered = filter (fun ip => match To4 ip with Some _ => false | None => true end)
                       iplist) /\
    (ipv6only o = false -> ipv4only o = false -> filtered = iplist).
Proof.
  intros Hl. unfold getIpList, bind. simpl. rewrite Hl.
  destruct (ipv6only o) eqn:H6, (ipv4only o) eqn:H4; simpl;
    eexists; (split; [reflexivity |]);
    repeat split; intros; try discriminate; try reflexivity;
    rewrite filterLoop_filter, H6, H4; simpl;
    apply filter_ext; intros ip; unfold isipv4; destruct (To4 ip); reflexivity.
Qed.

Lemma getIpList_family_filter_witness :
  exists filtered,
    getIpList (Scenario.env Scenario.whole_body)
              (Scenario.options false true false [] false false false "")
              "example.test" 0
      = ([EvLookupIP "example.test"], 0, Ok filtered) /\
    filtered = [Scenario.ip4].
Proof.
  destruct (getIpList_family_filter (Scenario.env Scenario.whole_body)
              (Scenario.options false true false [] false false false "")
              "example.test" [Scenario.ip4; Scenario.ip6] 0 eq_refl)
    as (filtered & Hrun & H4 & _).
  exists filtered. split; [exact Hrun |].
  rewrite (H4 eq_refl eq_refl). reflexivity.
Defined.

(* ----------------------------------------------------------------- *)
(** *** getTLSConfig *)

(** C7: with [noverify], [getTLSConfig] reads no file with
    [ioutil.ReadFile] (so never the CA bundle, whatever [cacert] is) and
    the configuration it returns skips verification and has no pool of
    its own; it fails to return only when the client key pair does not
    load.  In general a returned configuration has a pool of its own
    ([RootCAs]) only when [noverify] is off and [cacert] is set, and that
    pool is then made of the certificates of the [cacert] file alone;
    and with [noverify] off and a readable [cacert] file, a returned
    configuration verifies and has exactly that pool. *)
Theorem noverify_never_loads_cacert env o t :
  (noverify o = true ->
   (forall path, ~ In (EvReadFile path) (trace_of (getTLSConfig env o t))) /\
   match result_of (getTLSConfig env o t) with
   | Ok cfg => InsecureSkipVerify cfg = true /\ RootCAs cfg = None
   | Halt s =>
       s = Exited 1 /\ nonempty (clientcert o) = true /\
       exists e, tls_LoadX509KeyPair env (clientcert o) (clientkey o) = inl e
   end) /\
  (forall cfg pool,
     result_of (getTLSConfig env o t) = Ok cfg -> RootCAs cfg = Some pool ->
     noverify o = false /\ nonempty (cacert o) = true /\
     InsecureSkipVerify cfg = false /\
     In (EvReadFile (cacert o)) (trace_of (getTLSConfig env o t)) /\
     exists bytes, ioutil_ReadFile env (cacert o) = inr bytes /\
                   pool = AppendCertsFromPEM env bytes) /\
  (forall cfg bytes,
     noverify o = false -> nonempty (cacert o) = true ->
     ioutil_ReadFile env (cacert o) = inr bytes ->
     result_of (getTLSConfig env o t) = Ok cfg ->
     InsecureSkipVerify cfg = false /\
     RootCAs cfg = Some (AppendCertsFromPEM env bytes)).
Proof.
  unfold getTLSConfig, bind, log_Fatal, bind, emit, halt, ret, trace_of, result_of.
  split; [| split].
  - intros Hn. rewrite Hn.
    destruct (nonempty (clientcert o)) eqn:Hc; simpl.
    + destruct (tls_LoadX509KeyPair env (clientcert o) (clientkey o)) eqn:Hk; simpl.
      * split; [| eauto].
        intros path [H | [H | []]]; discriminate.
      * split; [| auto].
        intros path [H | []]; discriminate.
    + split; [| auto]. intros path [].
  - intros cfg pool.
    destruct (noverify o) eqn:Hn.
    + destruct (nonempty (clientcert o)); simpl;
        [destruct (tls_LoadX509KeyPair env (clientcert o) (clientkey o)); simpl |];
        intros H; inversion H; subst; simpl; discriminate.
    + destruct (nonempty (cacert o)) eqn:Hca; simpl.
      * destruct (ioutil_ReadFile env (cacert o)) as [e | bytes] eqn:Hf; simpl;
          [discriminate |].
        destruct (nonempty (clientcert o)); simpl;
          [destruct (tls_LoadX509KeyPair env (clientcert o) (clientkey o)); simpl |];
          intros H; inversion H; subst; simpl; intros Hp; inversion Hp; subst;
          repeat split; auto; eauto.
      * destruct (nonempty (clientcert o)); simpl;
          [destruct (tls_LoadX509KeyPair env (clientcert o) (clientkey o)); simpl |];
          intros H; inversion H; subst; simpl; discriminate.
  - intros cfg bytes Hn Hca Hf. rewrite Hn, Hca, Hf. simpl.
    destruct (nonempty (clientcert o)); simpl;
      [destruct (tls_LoadX509KeyPair env (clientcert o) (clientkey o)); simpl |];
      intros H; inversion H; subst; simpl; auto.
Qed.

Lemma noverify_never_loads_cacert_witness :
  let env := Scenario.env Scenario.whole_body in
  let o := Scenario.options false false false [] false false true "ca.pem" in
  nonempty (cacert o) = true /\
  (forall path, ~ In (EvReadFile path) (trace_of (getTLSConfig env o 0))) /\
  match result_of (getTLSConfig env o 0) with
  | Ok cfg => InsecureSkipVerify cfg = true /\ RootCAs cfg = None
  | Halt s =>
      s = Exited 1 /\ nonempty (clientcert o) = true /\
      exists e, tls_LoadX509KeyPair env (clientcert o) (clientkey o) = inl e
  end.
Proof.
  split; [reflexivity |].
  exact (proj1 (noverify_never_loads_cacert
                  (Scenario.env Scenario.whole_body)
                  (Scenario.options false false false [] false false true "ca.pem") 0)
               eq_refl).
Defined.

(* ----------------------------------------------------------------- *)
(** *** Printing *)

Lemma prints_only_emit (P : Event -> Prop) e : P e -> prints_only P (emit e).
Proof. intros H. exists [e]. split; [apply prints_emit | auto]. Qed.

Lemma prints_only_ret P : prints_only P (ret tt).
Proof. exists []. split; [apply prints_ret | constructor]. Qed.

Lemma prints_only_bind P (m : M unit) (k : unit -> M unit) :
  prints_only P m -> prints_only P (k tt) -> prints_only P (bind m k).
Proof.
  intros (o1 & H1 & F1) (o2 & H2 & F2). exists (o1 ++ o2)%list. split.
  - apply prints_bind; assumption.
  - apply Forall_app. auto.
Qed.

Lemma prints_only_when P b m : prints_only P m -> prints_only P (when b m).
Proof. destruct b; simpl; auto using prints_only_ret. Qed.

Lemma prints_only_for_range {A} P (l : list A) (body : A -> M unit) :
  (forall x, prints_only P (body x)) -> prints_only P (for_range l body).
Proof.
  intros Hb. induction l as [| x l IH]; simpl.
  - apply prints_only_ret.
  - apply prints_only_bind; auto.
Qed.

Lemma prints_only_for_range_i {A} P (l : list A) (body : Z -> A -> M unit) :
  (forall i x, prints_only P (body i x)) ->
  forall i, prints_only P (for_range_i i l body).
Proof.
  intros Hb. induction l as [| x l IH]; intros i; simpl.
  - apply prints_only_ret.
  - apply prints_only_bind; auto.
Qed.

Ltac printing :=
  repeat first
    [ apply prints_only_bind
    | apply prints_only_emit; exact I
    | apply prints_only_when
    | apply prints_only_for_range; intros
    | apply prints_only_for_range_i; intros
    | apply prints_only_ret ].

Lemma printCertDetails_prints env cert :
  prints_only is_printf (printCertDetails env cert).
Proof. unfold printCertDetails. printing. Qed.

Lemma printCertChainDetails_prints env chain :
  prints_only is_printf (printCertChainDetails env chain).
Proof.
  unfold printCertChainDetails, printCertDetails. printing.
Qed.

Lemma printVerifiedChains_prints chains :
  prints_only is_printf (printVerifiedChains chains).
Proof. unfold printVerifiedChains. printing. Qed.

Lemma prints_for_range_i_lines {A} (l : list A) (body : Z -> A -> M unit)
      (out : Z -> A -> list Event) :
  (forall i x, prints (body i x) (out i x)) ->
  forall i, prints (for_range_i i l body)
                   (flat_map (fun ix => out (fst ix) (snd ix)) (enumerate i l)).
Proof.
  intros Hb. induction l as [| x l IH]; intros i; simpl.
  - apply prints_ret.
  - apply prints_bind; [apply Hb | apply IH].
Qed.

Lemma flat_map_single {A B} (f : A -> B) (l : list A) :
  flat_map (fun x => [f x]) l = map f l.
Proof. induction l as [| x l IH]; simpl; [| rewrite IH]; reflexivity. Qed.

Lemma prints_for_range_lines {A} (l : list A) (line : A -> Event) :
  prints (for_range l (fun x => emit (line x))) (map line l).
Proof.
  rewrite <- flat_map_single. apply prints_for_range. intros x. apply prints_emit.
Qed.

(** What [printCertDetails] prints. *)
Lemma printCertDetails_lines env cert :
  prints (printCertDetails env cert) (cert_lines env cert).
Proof.
  unfold printCertDetails, cert_lines.
  repeat (apply (prints_bind _ _ [_] _); [apply prints_emit |]).
  apply (prints_bind _ _ (map _ (DNSNames cert)) _);
    [apply (prints_for_range_lines (DNSNames cert)) |].
  apply (prints_bind _ _ (map _ (IPAddresses cert)) _);
    [apply (prints_for_range_lines (IPAddresses cert)) |].
  apply (prints_bind _ _ (map _ (EmailAddresses cert)) _);
    [apply (prints_for_range_lines (EmailAddresses cert)) |].
  apply (prints_bind _ _ (map _ (URIs cert)) _);
    [apply (prints_for_range_lines (URIs cert)) |].
  repeat (apply (prints_bind _ _ [_] _); [apply prints_emit |]).
  apply (prints_bind _ _ (if BasicConstraintsValid cert then [_] else []) _);
    [apply prints_when, prints_emit |].
  repeat (apply (prints_bind _ _ [_] _); [apply prints_emit |]).
  apply prints_emit.
Qed.

(** What [printCertChainDetails] prints. *)
Lemma printCertChainDetails_lines env chain :
  prints (printCertChainDetails env chain) (chain_lines env chain).
Proof.
  unfold printCertChainDetails, chain_lines.
  apply (prints_bind _ _ [_] _); [apply prints_emit |].
  apply (prints_for_range_i_lines chain _
           (fun i cert =>
              EvPrintf "## Certificate at Depth: %d\n" [AInt i]
              :: cert_lines env cert)).
  intros i cert.
  apply (prints_bind _ _ [_] _); [apply prints_emit |].
  apply printCertDetails_lines.
Qed.

(** What [printVerifiedChains] prints. *)
Lemma printVerifiedChains_lines chains :
  prints (printVerifiedChains chains) (verified_lines chains).
Proof.
  unfold printVerifiedChains, verified_lines.
  apply (prints_for_range_i_lines chains _
           (fun i row =>
              EvPrintf "## Verified Certificate Chain %d:\n" [AInt i]
              :: flat_map (fun jc =>
                             [ EvPrintf "  %2d %v\n"
                                 [AInt (fst jc); AStr (Subject (snd jc))];
                               EvPrintf "     %v\n" [AStr (Issuer (snd jc))] ])
                          (enumerate 0 row))).
  intros i row.
  apply (prints_bind _ _ [_] _); [apply prints_emit |].
  apply (prints_for_range_i_lines row _
           (fun j cert =>
              [ EvPrintf "  %2d %v\n" [AInt j; AStr (Subject cert)];
                EvPrintf "     %v\n" [AStr (Issuer cert)] ])).
  intros j cert.
  apply (prints_bind _ _ [_] [_]); apply prints_emit.
Qed.

Lemma prints_functional m out out' : prints m out -> prints m out' -> out = out'.
Proof. intros H H'. specialize (H 0). rewrite (H' 0) in H. congruence. Qed.

(** C10: in a secure exchange with both [showcert] and [showcertchain]
    set, [printTLSinfo] prints the session lines, then the whole chain
    of the peer (the heading, then every certificate of the chain in
    order, with its depth from 0 and its details), then the verified
    chains (every chain with its number, every certificate of it with
    its position, subject and issuer), and nothing else: the line that
    opens the leaf-only block is not printed. *)
Theorem showcertchain_takes_precedence env o resp cs t :
  TLS resp = Some cs -> showcertchain o = true -> showcert o = true ->
  printTLSinfo env o resp t
  = ((session_lines env cs ++ chain_lines env (PeerCertificates cs)
      ++ verified_lines (VerifiedChains cs))%list, t, Ok tt) /\
  ~ In line_peer_certificate
       (session_lines env cs ++ chain_lines env (PeerCertificates cs)
        ++ verified_lines (VerifiedChains cs))%list.
Proof.
  intros Htls Hchain _.
  pose proof (printCertChainDetails_lines env (PeerCertificates cs)) as Hc.
  pose proof (printVerifiedChains_lines (VerifiedChains cs)) as Hv.
  split.
  - unfold printTLSinfo. rewrite Htls, Hchain.
    unfold bind at 1 2 3 4 5 6 7, emit. simpl.
    rewrite Hc, Hv. reflexivity.
  - destruct (printCertChainDetails_prints env (PeerCertificates cs))
      as (chain & Hc' & Fc).
    destruct (printVerifiedChains_prints (VerifiedChains cs))
      as (verified & Hv' & Fv).
    rewrite (prints_functional _ _ _ Hc Hc'), (prints_functional _ _ _ Hv Hv').
    intros Hin. apply in_app_or in Hin. destruct Hin as [Hin | Hin].
    + simpl in Hin.
      repeat (destruct Hin as [Hin | Hin]; [discriminate |]). exact Hin.
    + assert (F : Forall is_printf (chain ++ verified)) by (apply Forall_app; auto).
      rewrite Forall_forall in F. exact (F _ Hin).
Qed.

Lemma showcertchain_takes_precedence_witness :
  let env := Scenario.env Scenario.whole_body in
  let o := Scenario.options false false false [] true true false "" in
  printTLSinfo env o (Scenario.answer Scenario.whole_body) 0
  = ((session_lines env Scenario.session
      ++ [ EvPrintf "## -------------- FULL Certificate Chain ----------------\n" [];
           EvPrintf "## Certificate at Depth: %d\n" [AInt 0] ]
      ++ cert_lines env Scenario.leaf
      ++ [ EvPrintf "## Verified Certificate Chain %d:\n" [AInt 0];
           EvPrintf "  %2d %v\n" [AInt 0; AStr "CN=example.test"];
           EvPrintf "     %v\n" [AStr "CN=Test CA"] ])%list, 0, Ok tt) /\
  In (EvPrintf "   Subject: %v\n" [AStr "CN=example.test"])
     (cert_lines env Scenario.leaf) /\
  ~ In line_peer_certificate
       (trace_of (printTLSinfo env o (Scenario.answer Scenario.whole_body) 0)).
Proof.
  intros env o.
  destruct (showcertchain_takes_precedence
              env o (Scenario.answer Scenario.whole_body) Scenario.session 0
              eq_refl eq_refl eq_refl) as (Hp & Hn).
  split; [exact Hp |].
  split; [right; right; left; reflexivity |].
  rewrite Hp. exact Hn.
Defined.

(* ----------------------------------------------------------------- *)
(** *** readResponse *)

(** [readResponse] always returns; what it returns and what it leaves in
    the trace, by the outcome of [client.Do]. *)
Lemma readResponse_run env o c r t :
  readResponse env o c r t =
  match client_Do env t c (setAuth o r) with
  | (d, inl e) =>
      ([EvDo c (setAuth o r)], t + d,
       Ok {| response := None; body := []; responsetime := 0; err := Some e |})
  | (d, inr resp) =>
      ([EvDo c (setAuth o r); EvReadAll; EvBodyClose],
       t + d + body_time (Body resp),
       Ok {| response := Some resp; body := body_data (Body resp);
             responsetime := t + d + body_time (Body resp) - t;
             err := body_err (Body resp) |})
  end.
Proof.
  unfold readResponse, bind, time_Now, Do, ReadAll, time_Since, bind, time_Now,
    ret, emit.
  destruct (client_Do env t c (setAuth o r)) as [d [e | resp]]; reflexivity.
Qed.

(** C1, as the code has it: every attempt gives a [Result] in which
    [response] or [err] is set, never neither.  When [client.Do] fails
    only [err] is set.  When it succeeds [response] is set and [err] is
    whatever error stopped the read of the body: none after a complete
    read, so only [response] is set; the read error otherwise, so both
    are set. *)
Theorem readResponse_response_or_err env o c r t :
  exists result,
    result_of (readResponse env o c r t) = Ok result /\
    (response result <> None \/ err result <> None) /\
    (forall e, snd (client_Do env t c (setAuth o r)) = inl e ->
               response result = None /\ err result = Some e) /\
    (forall resp, snd (client_Do env t c (setAuth o r)) = inr resp ->
                  response result = Some resp /\
                  err result = body_err (Body resp)).
Proof.
  rewrite readResponse_run.
  destruct (client_Do env t c (setAuth o r)) as [d [e | resp]]; simpl;
    eexists; (split; [reflexivity |]); simpl.
  - split; [right; discriminate |].
    split; intros x Hx; inversion Hx; subst; auto.
  - split; [left; discriminate |].
    split; intros x Hx; inversion Hx; subst; auto.
Qed.

(** Against C1 as the specification states it: where the body cannot be
    read to its end, the result has both its response and its error. *)
Lemma readResponse_both_populated :
  exists result,
    result_of (readResponse (Scenario.env Scenario.broken_body)
                 (Scenario.options false false false [] false false false "")
                 Scenario.client Scenario.request 0) = Ok result /\
    response result = Some (Scenario.answer Scenario.broken_body) /\
    err result = Some "unexpected EOF".
Proof. eexists. split; [reflexivity |]. split; reflexivity. Qed.

(** C2, as the code has it: after a successful [client.Do] the reported
    response time runs from just before [client.Do] to just after
    [ioutil.ReadAll] has read the body: it is the time to the response
    headers plus the time spent reading the body. *)
Theorem responsetime_includes_body env o c r t resp :
  snd (client_Do env t c (setAuth o r)) = inr resp ->
  exists result,
    result_of (readResponse env o c r t) = Ok result /\
    responsetime result = header_latency env o c r t + body_time (Body resp) /\
    time_of (readResponse env o c r t) = t + responsetime result.
Proof.
  intros H. rewrite readResponse_run. unfold header_latency.
  destruct (client_Do env t c (setAuth o r)) as [d [e | resp']]; simpl in *;
    [discriminate |].
  inversion H; subst. eexists. split; [reflexivity |].
  unfold time_of, Time in *. simpl. split; lia.
Qed.

Lemma responsetime_includes_body_witness :
  let env := Scenario.env Scenario.whole_body in
  let o := Scenario.options false false false [] false false false "" in
  exists result,
    result_of (readResponse env o Scenario.client Scenario.request 0) = Ok result /\
    responsetime result
      = header_latency env o Scenario.client Scenario.request 0
        + body_time (Body (Scenario.answer Scenario.whole_body)) /\
    time_of (readResponse env o Scenario.client Scenario.request 0)
      = 0 + responsetime result.
Proof.
  apply (responsetime_includes_body (Scenario.env Scenario.whole_body)
           (Scenario.options false false false [] false false false "")
           Scenario.client Scenario.request 0
           (Scenario.answer Scenario.whole_body)).
  reflexivity.
Defined.

(** Against C2 as the specification states it: for a successful exchange
    whose headers are there after 10 ns and whose body takes 15 ns more,
    25 ns are reported. *)
Lemma responsetime_is_not_header_latency :
  let env := Scenario.env Scenario.whole_body in
  let o := Scenario.options false false false [] false false false "" in
  exists result,
    result_of (readResponse env o Scenario.client Scenario.request 0) = Ok result /\
    err result = None /\
    header_latency env o Scenario.client Scenario.request 0 = 10 /\
    responsetime result = 25 /\
    responsetime result <> header_latency env o Scenario.client Scenario.request 0.
Proof.
  eexists. split; [reflexivity |]. repeat split. discriminate.
Qed.

(* ----------------------------------------------------------------- *)
(** *** The run up to the first exchange *)

Lemma attempts_print out : Forall is_print out -> attempts out = [].
Proof.
  induction 1 as [| e out He _ IH]; [reflexivity |].
  destruct e; simpl in *; try contradiction; exact IH.
Qed.


Lemma addHeaders_Ok hs request t :
  Forall (fun h => contains_colon h = true) hs ->
  exists request', addHeaders hs request t = ([], t, Ok request').
Proof.
  intros H. revert request. induction H as [| h hs Hh _ IH]; intros request; simpl.
  - eexists. reflexivity.
  - destruct (SplitN_with_colon h Hh) as (a & b & ->).
    destruct (IH (Header_Add request a b)) as (request' & E).
    exists request'. unfold bind. simpl. rewrite E. reflexivity.
Qed.

Lemma addHeaders_panic hs request t :
  Exists (fun h => contains_colon h = false) hs ->
  addHeaders hs request t = ([], t, Halt (Panicked "index out of range")).
Proof.
  intros H. revert request. induction H as [h hs Hh | h hs _ IH]; intros request; simpl.
  - rewrite (SplitN_without_colon h Hh). reflexivity.
  - destruct (contains_colon h) eqn:Hh.
    + destruct (SplitN_with_colon h Hh) as (a & b & ->).
      unfold bind. simpl. rewrite IH. reflexivity.
    + rewrite (SplitN_without_colon h Hh). reflexivity.
Qed.

Lemma getRequest_Ok env o url t parsed :
  url_Parse env url = inr parsed ->
  Forall (fun h => contains_colon h = true) (headers o) ->
  exists request, getRequest env o url t = ([], t, Ok request).
Proof.
  intros Hu Hh. unfold getRequest, http_NewRequest. rewrite Hu.
  apply addHeaders_Ok. exact Hh.
Qed.


Lemma prologue_prints urlstring hostname port iplist :
  prints_only is_print (prologue urlstring hostname port iplist).
Proof. unfold prologue. printing. Qed.

Lemma url2addressport_parses env url hostname port :
  url2addressport env url = inr (hostname, port) ->
  exists parsed, url_Parse env url = inr parsed.
Proof.
  unfold url2addressport. destruct (url_Parse env url); [discriminate | eauto].
Qed.

Lemma getIpList_run env o hostname t :
  getIpList env o hostname t =
  match net_LookupIP env hostname with
  | inl e => ([EvLookupIP hostname; EvLog e], t, Halt (Exited 1))
  | inr iplist =>
      ([EvLookupIP hostname], t,
       Ok (if negb (ipv6only o || ipv4only o) then iplist
           else filterLoop o iplist []))
  end.
Proof.
  unfold getIpList, bind, emit, log_Fatal, bind, emit, halt, ret.
  destruct (net_LookupIP env hostname); [reflexivity |].
  destruct (negb (ipv6only o || ipv4only o)); reflexivity.
Qed.

Lemma prologue_lines_printed urlstring hostname port iplist :
  prints (prologue urlstring hostname port iplist)
         (prologue_lines urlstring hostname port iplist).
Proof.
  unfold prologue, prologue_lines.
  apply (prints_bind _ _ [_] _); [apply prints_emit |].
  apply (prints_bind _ _ [_] _); [apply prints_emit |].
  apply (prints_for_range_lines iplist).
Qed.




(* ----------------------------------------------------------------- *)
(** *** An empty list of addresses *)

(** C3, as the code has it: when the lookup succeeds and the family
    filter leaves no address, [getIpList] returns the empty list and
    reports nothing; the run goes on (the headers being well formed):
    the prologue is printed without any address unless [bodyonly] is
    set, the request is built, the loop over the addresses runs zero
    times, and [main] returns. *)
Theorem empty_filtered_list_probes_nothing env f t o url hostname port iplist :
  doFlags f t = ([], t, Ok (o, url)) ->
  url2addressport env url = inr (hostname, port) ->
  net_LookupIP env hostname = inr iplist ->
  ipv6only o || ipv4only o = true ->
  filterLoop o iplist [] = [] ->
  Forall (fun h => contains_colon h = true) (headers o) ->
  getIpList env o hostname t = ([EvLookupIP hostname], t, Ok []) /\
  main env f t =
  (EvLookupIP hostname ::
     (if bodyonly o then []
      else [ EvPrintf "URL: %s\nHostname: %s\nPort: %s\n"
               [AStr url; AStr hostname; AStr port];
             EvPrintln [AStr "Addresses:"] ]),
   t, Ok tt).
Proof.
  intros Ef Eu El Hfam Hempty Hh.
  assert (Eg : getIpList env o hostname t = ([EvLookupIP hostname], t, Ok [])).
  { rewrite getIpList_run, El, Hfam. simpl. rewrite Hempty. reflexivity. }
  split; [exact Eg |].
  pose proof (doFlags_Ok _ _ _ _ _ _ Ef) as (E6 & E4 & _ & Eq & _).
  assert (Hq : queryall o = true).
  { rewrite Eq, <- E6, <- E4. destruct (ipv6only o), (ipv4only o);
      simpl in *; congruence. }
  destruct (url2addressport_parses _ _ _ _ Eu) as (parsed & Ep).
  destruct (getRequest_Ok env o url t parsed Ep Hh) as (request & Er).
  unfold main. rewrite (bind_step _ _ _ _ _ _ Ef). simpl.
  unfold run. rewrite Eu, (bind_step _ _ _ _ _ _ Eg).
  assert (Epr : when (negb (bodyonly o)) (prologue url hostname port []) t
                = ((if bodyonly o then []
                    else [ EvPrintf "URL: %s\nHostname: %s\nPort: %s\n"
                             [AStr url; AStr hostname; AStr port];
                           EvPrintln [AStr "Addresses:"] ]), t, Ok tt))
    by (destruct (bodyonly o); reflexivity).
  rewrite (bind_step _ _ _ _ _ _ Epr), (bind_step _ _ _ _ _ _ Er), Hq.
  unfold trace_of, time_of, result_of. simpl. rewrite app_nil_r. reflexivity.
Qed.

Lemma empty_filtered_list_probes_nothing_witness :
  let env := Scenario.env Scenario.whole_body in
  let o := Scenario.options false true false [] false false false "" in
  getIpList env o "ipv6.example.test" 0
    = ([EvLookupIP "ipv6.example.test"], 0, Ok []) /\
  main env (Scenario.flags Scenario.url6 false true false [] ""
                           false false false "") 0 =
  (EvLookupIP "ipv6.example.test" ::
     (if bodyonly o then []
      else [ EvPrintf "URL: %s\nHostname: %s\nPort: %s\n"
               [AStr Scenario.url6; AStr "ipv6.example.test"; AStr "443"];
             EvPrintln [AStr "Addresses:"] ]),
   0, Ok tt).
Proof.
  apply (empty_filtered_list_probes_nothing
           (Scenario.env Scenario.whole_body)
           (Scenario.flags Scenario.url6 false true false [] ""
                           false false false "")
           0 (Scenario.options false true false [] false false false "")
           Scenario.url6 "ipv6.example.test" "443" [Scenario.ip6]);
    try reflexivity.
  constructor.
Defined.

(** Against C3 as the specification states it: for [-4] and a host that
    has IPv6 addresses only, no error is reported, no request is
    attempted, and the run returns as if all had gone well. *)
Lemma empty_filtered_list_is_not_an_error :
  let r := main (Scenario.env Scenario.whole_body)
                (Scenario.flags Scenario.url6 false true false [] ""
                                false false false "") 0 in
  result_of r = Ok tt /\
  attempts (trace_of r) = [] /\
  trace_of r =
  [ EvLookupIP "ipv6.example.test";
    EvPrintf "URL: %s\nHostname: %s\nPort: %s\n"
      [AStr Scenario.url6; AStr "ipv6.example.test"; AStr "443"];
    EvPrintln [AStr "Addresses:"] ].
Proof. repeat split. Qed.

(* ----------------------------------------------------------------- *)
(** *** One attempt *)

Lemma prints_only_weaken (P Q : Event -> Prop) m :
  (forall e, P e -> Q e) -> prints_only P m -> prints_only Q m.
Proof.
  intros HPQ (out & H & F). exists out. split; [exact H |].
  eapply Forall_impl; eauto.
Qed.

Lemma prints_only_bind_ret {A} P (a : A) (k : A -> M unit) :
  prints_only P (k a) -> prints_only P (bind (ret a) k).
Proof.
  intros (out & H & F). exists out. split; [| exact F].
  intro t. unfold bind, ret. rewrite (H t). reflexivity.
Qed.

Lemma is_printf_print e : is_printf e -> is_print e.
Proof. destruct e; simpl; auto. Qed.

Lemma printTLSinfo_prints env o resp :
  (forall cs, TLS resp = Some cs -> showcert o = true ->
              showcertchain o = false -> PeerCertificates cs <> []) ->
  prints_only is_print (printTLSinfo env o resp).
Proof.
  intros Hleaf. unfold printTLSinfo.
  destruct (TLS resp) as [cs |]; [| printing].
  printing.
  destruct (showcertchain o) eqn:Hchain.
  - printing.
  - destruct (showcert o) eqn:Hcert; [| printing].
    printing.
    specialize (Hleaf cs eq_refl eq_refl eq_refl).
    destruct (PeerCertificates cs) as [| leaf rest]; [congruence |].
    apply (prints_only_bind_ret is_print leaf).
    apply (prints_only_weaken is_printf); [exact is_printf_print |].
    apply printCertDetails_prints.
Qed.

Lemma printStatus_prints env resp : prints_only is_print (printStatus env resp).
Proof. unfold printStatus. printing. Qed.

Lemma printHeaders_prints header : prints_only is_print (printHeaders header).
Proof. unfold printHeaders. printing. Qed.

Lemma addressString_nonempty env ip port :
  nonempty (addressString env ip port) = true.
Proof.
  unfold addressString, nonempty.
  destruct (negb (contains_colon (ip_String env ip))); [| reflexivity].
  destruct (ip_String env ip); reflexivity.
Qed.

(** [getTLSConfig] does not depend on the time. *)
Lemma getTLSConfig_any_time env o trc cfg :
  getTLSConfig env o 0 = (trc, 0, Ok cfg) ->
  (forall t, getTLSConfig env o t = (trc, t, Ok cfg)) /\ attempts trc = [].
Proof.
  unfold getTLSConfig, bind, log_Fatal, bind, emit, halt, ret.
  destruct (noverify o); [| destruct (nonempty (cacert o));
    [destruct (ioutil_ReadFile env (cacert o)) |]]; simpl;
    try discriminate;
    (destruct (nonempty (clientcert o));
     [destruct (tls_LoadX509KeyPair env (clientcert o) (clientkey o)) |]);
    simpl; try discriminate;
    intros H; inversion H; subst; split; reflexivity.
Qed.

Lemma getClient_run env o trc cfg address t :
  (forall t, getTLSConfig env o t = (trc, t, Ok cfg)) ->
  getClient env o address t =
  (trc, t,
   Ok {| Timeout := timeout o; TLSClientConfig := cfg;
         ForceAttemptHTTP2 := true;
         DialAddress := if nonempty address then Some address else None;
         CheckRedirectLast := noredirect o |}).
Proof.
  intros H. unfold getClient. rewrite (bind_step _ _ _ _ _ _ (H t)).
  unfold trace_of, time_of, result_of, ret. simpl. rewrite app_nil_r. reflexivity.
Qed.

Lemma addressString_text env ip port :
  addressString env ip port
  = if contains_colon (ip_String env ip)
    then "[" ++ ip_String env ip ++ "]:" ++ port
    else ip_String env ip ++ ":" ++ port.
Proof.
  unfold addressString. destruct (contains_colon (ip_String env ip)); reflexivity.
Qed.

(** One turn of the loop: the CONNECT line, then [querySingle] for the
    address: a client of its own that dials the address, one exchange,
    and the report on it. *)
Lemma querySingle_turn env o trc cfg request port ip t :
  (forall t, getTLSConfig env o t = (trc, t, Ok cfg)) ->
  (showcert o = true -> showcertchain o = false -> leaf_present env) ->
  exists block t',
    bind (emit (line_connect ip port))
         (fun _ => querySingle env o request (addressString env ip port)) t
    = (block, t', Ok tt) /\
    turn env o trc cfg (setAuth o request) port t ip block t'.
Proof.
  intros Htls Hleaf.
  assert (Ec : getClient env o (addressString env ip port) t
               = (trc, t, Ok (turn_client env o cfg port ip))).
  { rewrite (getClient_run env o trc cfg (addressString env ip port) t Htls).
    rewrite addressString_nonempty. unfold turn_client.
    rewrite <- addressString_text. reflexivity. }
  set (c := turn_client env o cfg port ip) in *.
  pose proof (readResponse_run env o c request t) as Er.
  unfold turn. fold c.
  assert (Eb : forall rest t',
    querySingle env o request (addressString env ip port) t
    = ((trc ++ EvDo c (setAuth o request) :: rest)%list, t', Ok tt) ->
    bind (emit (line_connect ip port))
         (fun _ => querySingle env o request (addressString env ip port)) t
    = ((EvPrintf "\nCONNECT: %s %s ..\n" [AIP ip; AStr port]
        :: trc ++ EvDo c (setAuth o request) :: rest)%list, t', Ok tt)).
  { intros rest t' E. unfold bind, emit. rewrite E. reflexivity. }
  unfold querySingle in Eb. rewrite (bind_step _ _ _ _ _ _ Ec) in Eb.
  destruct (client_Do env t c (setAuth o request)) as [d [e | resp]] eqn:Edo.
  - (* the exchange fails *)
    rewrite (bind_step _ _ _ _ _ _ Er) in Eb. simpl in Eb.
    eexists _, (t + d). split; [apply Eb; reflexivity |].
    exists [EvPrintln [AErr e]]. split; [reflexivity |]. split; reflexivity.
  - rewrite (bind_step _ _ _ _ _ _ Er) in Eb. simpl in Eb.
    destruct (body_err (Body resp)) as [e |] eqn:Ebody.
    + (* the body cannot be read *)
      eexists _, (t + d + body_time (Body resp)).
      split; [apply Eb; reflexivity |].
      exists [EvReadAll; EvBodyClose; EvPrintln [AErr e]].
      split; [reflexivity |]. split; reflexivity.
    + (* the report *)
      assert (Hp : prints_only is_print
        (bind (when (negb (bodyonly o))
                 (bind (emit (EvPrintf "## ResponseTime: %v\n"
                                [AInt (t + d + body_time (Body resp) - t)]))
                    (fun _ => bind (printTLSinfo env o resp)
                       (fun _ => bind (printStatus env resp)
                          (fun _ => printHeaders (RespHeader resp))))))
              (fun _ => when (printbody o || bodyonly o)
                          (emit (EvPrintf "%s\n" [ABytes (body_data (Body resp))]))))).
      { printing.
        apply printTLSinfo_prints. intros cs Hcs Hsc Hch.
        apply (Hleaf Hsc Hch t c (setAuth o request) resp cs); [| exact Hcs].
        rewrite Edo. reflexivity. }
      destruct Hp as (out & Hp & Fp).
      rewrite (Hp (t + d + body_time (Body resp))) in Eb.
      eexists _, (t + d + body_time (Body resp)).
      split; [apply (Eb (EvReadAll :: EvBodyClose :: out)%list); reflexivity |].
      exists (EvReadAll :: EvBodyClose :: out)%list.
      split; [reflexivity |]. split; [reflexivity |].
      exists out. split; [reflexivity | exact Fp].
Qed.

(* ----------------------------------------------------------------- *)
(** *** The loop over the addresses *)

Lemma queryAll_turns env o trc cfg request port iplist :
  (forall t, getTLSConfig env o t = (trc, t, Ok cfg)) ->
  (showcert o = true -> showcertchain o = false -> leaf_present env) ->
  forall t, exists blocks t',
    queryAll env o request port iplist t = (List.concat blocks, t', Ok tt) /\
    turns env o trc cfg (setAuth o request) port t iplist blocks t'.
Proof.
  intros Htls Hleaf. unfold queryAll.
  induction iplist as [| ip rest IH]; intros t; simpl.
  - exists [], t. split; [reflexivity | constructor].
  - destruct (querySingle_turn env o trc cfg request port ip t Htls Hleaf)
      as (block & t1 & Eturn & Hturn).
    destruct (IH t1) as (blocks & t' & Eloop & Hblocks).
    rewrite (bind_step _ _ _ _ _ _ Eturn), Eloop.
    exists (block :: blocks), t'.
    split; [reflexivity |].
    econstructor; eassumption.
Qed.

Lemma turns_attempts env o setup cfg r port t iplist blocks t' :
  attempts setup = [] ->
  turns env o setup cfg r port t iplist blocks t' ->
  attempts (List.concat blocks)
  = map (fun ip => (turn_client env o cfg port ip, r)) iplist.
Proof.
  intros Hs. induction 1 as [| t ip block t1 rest blocks t' Hb _ IH];
    [reflexivity |].
  destruct Hb as (report & -> & Hr).
  assert (Hrep : attempts report = []).
  { destruct (client_Do env t (turn_client env o cfg port ip) r)
      as [d [e | resp]].
    - destruct Hr as (-> & _). reflexivity.
    - destruct Hr as (_ & Hr). destruct (body_err (Body resp)).
      + subst report. reflexivity.
      + destruct Hr as (out & -> & Fo). simpl. apply attempts_print, Fo. }
  simpl List.concat. cbn [attempts].
  rewrite !attempts_app, Hs. cbn [attempts app].
  rewrite Hrep. cbn [app map]. rewrite IH. reflexivity.
Qed.

(** C6: with [queryall], once the run has reached the loop (the URL
    parses, the lookup gives [iplist], the header arguments are well
    formed) and the TLS material loads, [main] returns after one turn
    per address, in the order of [iplist], each turn starting when the
    one before it has ended: the CONNECT line of the address, the set-up
    of a client of its own that dials this address (its text and the
    port joined by a colon, in brackets when the text has a colon),
    exactly one exchange of the request with this client, and the report
    on this exchange, which for a failed exchange or an unreadable body
    is the printed error and nothing else.  So the exchanges of the run
    are as many as the addresses, one per address in order, whatever
    fails on the way. *)
Theorem queryall_probes_every_address
        env f t tr0 t0 o url hostname port iplist trc cfg :
  doFlags f t = (tr0, t0, Ok (o, url)) ->
  queryall o = true ->
  url2addressport env url = inr (hostname, port) ->
  result_of (getIpList env o hostname t) = Ok iplist ->
  Forall (fun h => contains_colon h = true) (headers o) ->
  getTLSConfig env o 0 = (trc, 0, Ok cfg) ->
  (showcert o = true -> showcertchain o = false -> leaf_present env) ->
  exists request pre blocks t',
    getRequest env o url t = ([], t, Ok request) /\
    main env f t = ((pre ++ List.concat blocks)%list, t', Ok tt) /\
    attempts pre = [] /\
    turns env o trc cfg (setAuth o request) port t iplist blocks t' /\
    attempts (trace_of (main env f t))
    = map (fun ip => (turn_client env o cfg port ip, setAuth o request)) iplist.
Proof.
  intros Ef Hq Eu Eg Hh Etls Hleaf.
  pose proof (doFlags_Ok _ _ _ _ _ _ Ef) as (_ & _ & _ & _ & _ & _ & _ & -> & ->).
  destruct (getTLSConfig_any_time env o trc cfg Etls) as (Htls & Htrc).
  destruct (url2addressport_parses _ _ _ _ Eu) as (parsed & Ep).
  destruct (getRequest_Ok env o url t parsed Ep Hh) as (request & Er).
  pose proof (getIpList_run env o hostname t) as Egr.
  destruct (net_LookupIP env hostname) as [e | iplist0];
    rewrite Egr in Eg; [discriminate |].
  unfold result_of in Eg. simpl in Eg. injection Eg as Eip. rewrite Eip in Egr.
  destruct (prints_only_when is_print (negb (bodyonly o)) _
              (prologue_prints url hostname port iplist)) as (out & Hp & Fp).
  destruct (queryAll_turns env o trc cfg request port iplist Htls Hleaf t)
    as (blocks & t' & Eloop & Hblocks).
  assert (Em : main env f t
               = (((EvLookupIP hostname :: out) ++ List.concat blocks)%list, t', Ok tt)).
  { unfold main. rewrite (bind_step _ _ _ _ _ _ Ef). simpl.
    unfold run. rewrite Eu, (bind_step _ _ _ _ _ _ Egr).
    rewrite (bind_step _ _ _ _ _ _ (Hp t)), (bind_step _ _ _ _ _ _ Er), Hq.
    rewrite Eloop. reflexivity. }
  exists request, (EvLookupIP hostname :: out), blocks, t'.
  assert (Hpre : attempts (EvLookupIP hostname :: out) = [])
    by (simpl; apply attempts_print, Fp).
  split; [exact Er |].
  split; [exact Em | split; [exact Hpre | split; [exact Hblocks |]]].
  rewrite Em. unfold trace_of. cbn [fst].
  rewrite attempts_app, Hpre.
  apply (turns_attempts env o trc cfg (setAuth o request) port t iplist blocks t');
    assumption.
Qed.

(** The scenario of the specification: two addresses, the handshake with
    the first one fails, the second one is probed all the same. *)
Lemma queryall_probes_every_address_witness :
  let env := Scenario.env Scenario.whole_body in
  let f := Scenario.flags Scenario.url false false true [] ""
                          false false false "" in
  let o := Scenario.options false false true [] false false false "" in
  let cfg := {| ServerName := ""; InsecureSkipVerify := false;
                RootCAs := None; Certificates := [] |} in
  let c := fun address =>
             {| Timeout := defaultTimeout; TLSClientConfig := cfg;
                ForceAttemptHTTP2 := true; DialAddress := Some address;
                CheckRedirectLast := true |} in
  exists pre report t',
    main env f 0
    = ((pre ++
        [ EvPrintf "\nCONNECT: %s %s ..\n" [AIP Scenario.ip4; AStr "443"];
          EvDo (c "192.0.2.1:443") Scenario.request;
          EvPrintln [AErr Scenario.handshake_failure] ] ++
        [ EvPrintf "\nCONNECT: %s %s ..\n" [AIP Scenario.ip6; AStr "443"];
          EvDo (c "[2001:db8::1]:443") Scenario.request;
          EvReadAll; EvBodyClose ] ++ report)%list, t', Ok tt) /\
    attempts pre = [] /\ Forall is_print report /\
    attempts (trace_of (main env f 0))
    = [ (c "192.0.2.1:443", Scenario.request);
        (c "[2001:db8::1]:443", Scenario.request) ].
Proof.
  intros env f o cfg c.
  destruct (queryall_probes_every_address
              env f 0 [] 0 o Scenario.url "example.test" "443"
              [Scenario.ip4; Scenario.ip6] [] cfg
              eq_refl eq_refl eq_refl eq_refl
              (Forall_nil _) eq_refl
              (fun H : showcert o = true => False_ind _ (Bool.diff_false_true H)))
    as (request & pre & blocks & t' & Er & Em & Hpre & Hturns & Ha).
  assert (Hreq : request = Scenario.request)
    by (vm_compute in Er; injection Er as Er; symmetry; exact Er).
  subst request.
  inversion Hturns as [| ? ? block1 t1 ? blocks1 ? H1 Hrest]; subst.
  inversion Hrest as [| ? ? block2 t2 ? blocks2 ? H2 Hnil]; subst.
  inversion Hnil; subst.
  destruct H1 as (rest1 & -> & Hr1). vm_compute in Hr1. destruct Hr1 as (-> & ->).
  destruct H2 as (rest2 & -> & Hr2). vm_compute in Hr2.
  destruct Hr2 as (-> & report & -> & Hrep).
  exists pre, report, 35.
  split; [| split; [exact Hpre | split; [exact Hrep | exact Ha]]].
  rewrite Em. cbn [List.concat app]. rewrite app_nil_r. reflexivity.
Defined.

(* ================================================================= *)
(** ** Further properties of the program *)

(* ----------------------------------------------------------------- *)
(** *** doFlags: when it returns, how it stops *)

Lemma cut_colon_round_trip s a b :
  cut_colon s = Some (a, b) ->
  s = a ++ ":" ++ b /\ contains_colon a = false.
Proof.
  revert a b. induction s as [| c s IH]; intros a b; simpl; [discriminate |].
  destruct (Ascii.eqb c ":") eqn:Hc.
  - intros H. inversion H; subst. apply Ascii.eqb_eq in Hc. subst. auto.
  - destruct (cut_colon s) as [[a' b'] |]; [| discriminate].
    intros H. inversion H; subst. destruct (IH a' b eq_refl) as (-> & Ha).
    simpl. rewrite Hc. auto.
Qed.

Lemma doFlags_Parse_Ok f t : doFlags_Parse (ParseOk f) t = doFlags f t.
Proof.
  unfold doFlags_Parse, flag_Parse, bind, ret.
  destruct (doFlags f t) as [[tr t'] r]. reflexivity.
Qed.

(** When the statements after [flag.Parse()] return. *)
Lemma doFlags_accepts f t url :
  (exists o, doFlags f t = ([], t, Ok (o, url))) <->
  (nonempty (flag_authbasic f) = true -> contains_colon (flag_authbasic f) = true) /\
  flag_6 f && flag_4 f = false /\
  flag_h f = false /\
  flag_Args f = [url].
Proof.
  unfold doFlags, NArg.
  destruct (nonempty (flag_authbasic f)) eqn:Hne.
  - destruct (contains_colon (flag_authbasic f)) eqn:Hc.
    + destruct (SplitN_with_colon _ Hc) as (a & b & ->).
      unfold bind, index, when, emit, halt, ret. simpl.
      destruct (flag_6 f), (flag_4 f), (flag_h f),
        (flag_Args f) as [| x [| y l]]; simpl;
        (split;
         [ intros [o H]; inversion H; subst; auto
         | intros (_ & H2 & H3 & H4); try discriminate;
           inversion H4; subst; eexists; reflexivity ]).
    + rewrite (SplitN_without_colon _ Hc).
      unfold bind, index, when, emit, halt, ret. simpl.
      split; [intros [o H]; discriminate |].
      intros (H1 & _). specialize (H1 eq_refl). discriminate.
  - unfold bind, index, when, emit, halt, ret. simpl.
    destruct (flag_6 f), (flag_4 f), (flag_h f),
      (flag_Args f) as [| x [| y l]]; simpl;
      (split;
       [ intros [o H]; inversion H; subst; repeat split; auto; discriminate
       | intros (_ & H2 & H3 & H4); try discriminate;
         inversion H4; subst; eexists; reflexivity ]).
Qed.

(** X1: [doFlags], its call of [flag.Parse()] included, returns, with
    the URL [url], exactly when [flag.Parse()] accepts the command line
    (every flag is defined and every value parses) and, for the values
    it leaves, the [-authbasic] value (if given) has a colon, [-4] and
    [-6] are not both set, [-h] is not set, and the command line has the
    one argument [url].  It then has printed nothing. *)
Theorem doFlags_returns_iff p t url :
  (exists o, doFlags_Parse p t = ([], t, Ok (o, url))) <->
  exists f,
    p = ParseOk f /\
    (nonempty (flag_authbasic f) = true ->
     contains_colon (flag_authbasic f) = true) /\
    flag_6 f && flag_4 f = false /\
    flag_h f = false /\
    flag_Args f = [url].
Proof.
  destruct p as [out code | f].
  - split.
    + intros [o H]. discriminate H.
    + intros (f & H & _). discriminate H.
  - split.
    + intros [o H]. rewrite doFlags_Parse_Ok in H. exists f.
      split; [reflexivity |]. apply (doFlags_accepts f t url). eauto.
    + intros (f' & H & Hc). inversion H; subst f'.
      apply (doFlags_accepts f t url) in Hc. destruct Hc as [o Ho].
      exists o. rewrite doFlags_Parse_Ok. exact Ho.
Qed.

(** X2: once [flag.Parse()] has accepted the command line, a
    [-authbasic] value without a colon makes [doFlags] panic on [tmp[1]]
    before any check of its own (both family flags, [-h], the number of
    arguments): nothing is printed, not even the usage text asked for
    with [-h].  When [flag.Parse()] does not accept the command line the
    run ends there, as [flag.Parse()] ends it, and the value is not
    looked at. *)
Theorem doFlags_authbasic_without_colon_panics f t :
  nonempty (flag_authbasic f) = true ->
  contains_colon (flag_authbasic f) = false ->
  doFlags_Parse (ParseOk f) t = ([], t, Halt (Panicked "index out of range")) /\
  forall out code,
    doFlags_Parse (ParseExit out code) t = (out, t, Halt (Exited code)).
Proof.
  intros Hne Hc. split; [| reflexivity].
  rewrite doFlags_Parse_Ok. unfold doFlags.
  rewrite Hne, (SplitN_without_colon _ Hc). reflexivity.
Qed.

Lemma doFlags_authbasic_without_colon_panics_witness :
  doFlags_Parse
    (ParseOk (Scenario.flags Scenario.url false false false [] "admin"
                             false false false "")) 0
  = ([], 0, Halt (Panicked "index out of range")).
Proof.
  apply (doFlags_authbasic_without_colon_panics
           (Scenario.flags Scenario.url false false false [] "admin"
                           false false false "") 0);
    reflexivity.
Defined.

(** X3: the credentials [doFlags] returns are the [-authbasic] value cut
    at its first colon: the user name has no colon, the password keeps
    every later colon, and the two joined by a colon give the value back.
    Without [-authbasic] both are empty. *)
Theorem doFlags_credentials f t tr t' o url :
  doFlags f t = (tr, t', Ok (o, url)) ->
  (nonempty (flag_authbasic f) = true ->
   flag_authbasic f = username o ++ ":" ++ password o /\
   contains_colon (username o) = false) /\
  (nonempty (flag_authbasic f) = false -> username o = "" /\ password o = "").
Proof.
  unfold doFlags, NArg. intros H.
  apply bind_Ok in H. destruct H as (tr1 & t1 & o1 & tr2 & H1 & H & ->).
  assert (Hu : username o = username o1 /\ password o = password o1).
  { apply bind_Ok in H. destruct H as (? & ? & [] & ? & _ & H & ->).
    apply bind_Ok in H. destruct H as (? & ? & [] & ? & _ & H & ->).
    apply bind_Ok in H. destruct H as (? & ? & u & ? & _ & H & ->).
    inversion H; subst.
    destruct (ipv6only o1 || ipv4only o1); simpl;
      destruct (queryall o1); simpl; auto. }
  destruct Hu as (-> & ->).
  destruct (nonempty (flag_authbasic f)) eqn:Hne.
  - split; [intros _ | discriminate].
    apply bind_Ok in H1. destruct H1 as (? & ? & u & ? & Hu & H1 & ->).
    apply bind_Ok in H1. destruct H1 as (? & ? & p & ? & Hp & H1 & ->).
    apply index_Ok in Hu. destruct Hu as (Hu & -> & ->).
    apply index_Ok in Hp. destruct Hp as (Hp & -> & ->).
    inversion H1; subst. simpl.
    unfold SplitN_colon_2 in Hu, Hp.
    destruct (cut_colon (flag_authbasic f)) as [[a b] |] eqn:Hcut;
      simpl in Hu, Hp; [| discriminate].
    inversion Hu; inversion Hp; subst.
    apply cut_colon_round_trip. exact Hcut.
  - split; [discriminate | intros _].
    inversion H1; subst. simpl. auto.
Qed.

Lemma doFlags_credentials_witness :
  let f := Scenario.flags Scenario.url false false false [] "admin:a:b"
                          false false false "" in
  exists o,
    doFlags f 0 = ([], 0, Ok (o, Scenario.url)) /\
    username o = "admin" /\ password o = "a:b" /\
    (nonempty (flag_authbasic f) = true ->
     flag_authbasic f = username o ++ ":" ++ password o /\
     contains_colon (username o) = false).
Proof.
  eexists. split; [reflexivity |]. split; [reflexivity |]. split; [reflexivity |].
  exact (proj1 (doFlags_credentials
                  (Scenario.flags Scenario.url false false false [] "admin:a:b"
                                  false false false "")
                  0 [] 0 _ Scenario.url eq_refl)).
Defined.

(** X4: with well-formed credentials and not both family flags, [-h] or a
    number of arguments other than one ends [doFlags] with the usage text
    and exit status 4; the line about the number of arguments goes to
    standard error only when there is at least one argument.  So [-h]
    alone prints the usage text and still exits with status 4. *)
Theorem doFlags_usage_exit f t :
  (nonempty (flag_authbasic f) = true -> contains_colon (flag_authbasic f) = true) ->
  flag_6 f && flag_4 f = false ->
  flag_h f = true \/ List.length (flag_Args f) <> 1%nat ->
  doFlags f t =
  ((if (List.length (flag_Args f) =? 0)%nat then [] else [EvStderr msg_arguments])
     ++ [EvUsage], t, Halt (Exited 4))%list.
Proof.
  intros Hauth Hboth Hbad. unfold doFlags, NArg.
  assert (Hb : flag_h f || negb (List.length (flag_Args f) =? 1)%nat = true).
  { destruct Hbad as [-> | Hn]; [reflexivity |].
    apply Nat.eqb_neq in Hn. rewrite Hn. apply orb_true_r. }
  destruct (nonempty (flag_authbasic f)) eqn:Hne.
  - destruct (SplitN_with_colon _ (Hauth eq_refl)) as (a & b & ->).
    unfold bind, index, when, emit, halt, ret. simpl.
    rewrite Hboth, Hb. simpl.
    destruct (List.length (flag_Args f) =? 0)%nat; reflexivity.
  - unfold bind, index, when, emit, halt, ret. simpl.
    rewrite Hboth, Hb. simpl.
    destruct (List.length (flag_Args f) =? 0)%nat; reflexivity.
Qed.

Lemma doFlags_usage_exit_witness :
  doFlags {| flag_h := true; flag_6 := false; flag_4 := false;
             flag_t := defaultTimeout; flag_printbody := false;
             flag_bodyonly := false; flag_queryall := false;
             flag_noredirect := false; flag_sni := ""; flag_header := [];
             flag_cacert := ""; flag_clientcert := ""; flag_clientkey := "";
             flag_authbasic := ""; flag_showcert := false;
             flag_showcertchain := false; flag_noverify := false;
             flag_Args := [] |} 0
  = ([EvUsage], 0, Halt (Exited 4)).
Proof.
  apply (doFlags_usage_exit
           {| flag_h := true; flag_6 := false; flag_4 := false;
              flag_t := defaultTimeout; flag_printbody := false;
              flag_bodyonly := false; flag_queryall := false;
              flag_noredirect := false; flag_sni := ""; flag_header := [];
              flag_cacert := ""; flag_clientcert := ""; flag_clientkey := "";
              flag_authbasic := ""; flag_showcert := false;
              flag_showcertchain := false; flag_noverify := false;
              flag_Args := [] |} 0).
  - intros H. discriminate H.
  - reflexivity.
  - left. reflexivity.
Defined.

(** X5: in the options [doFlags] returns, [queryall] is set exactly when
    [-queryall], [-4] or [-6] was given, and [noredirect] exactly when
    one of those or [-noredirect] was given; every other flag is passed
    on as given. *)
Theorem doFlags_forces_nothing_else f t tr t' o url :
  doFlags f t = (tr, t', Ok (o, url)) ->
  queryall o = (flag_queryall f || flag_4 f || flag_6 f) /\
  noredirect o = (flag_noredirect f || flag_queryall f || flag_4 f || flag_6 f) /\
  ipv6only o = flag_6 f /\ ipv4only o = flag_4 f /\
  timeout o = flag_t f /\ printbody o = flag_printbody f /\
  bodyonly o = flag_bodyonly f /\ sni o = flag_sni f /\
  headers o = flag_header f /\ cacert o = flag_cacert f /\
  clientcert o = flag_clientcert f /\ clientkey o = flag_clientkey f /\
  showcert o = flag_showcert f /\ showcertchain o = flag_showcertchain f /\
  noverify o = flag_noverify f /\ useragent o = defaultAgent.
Proof.
  unfold doFlags, NArg. intros H.
  apply bind_Ok in H. destruct H as (tr1 & t1 & o1 & tr2 & H1 & H & ->).
  assert (Ho1 : exists u p, o1 = set_credentials (options_of_flags f) u p).
  { destruct (nonempty (flag_authbasic f)).
    - apply bind_Ok in H1. destruct H1 as (? & ? & u & ? & _ & H1 & ->).
      apply bind_Ok in H1. destruct H1 as (? & ? & p & ? & _ & H1 & ->).
      inversion H1; subst. eauto.
    - inversion H1; subst. exists "", "". reflexivity. }
  destruct Ho1 as (u & p & ->).
  apply bind_Ok in H. destruct H as (? & ? & [] & ? & _ & H & ->).
  apply bind_Ok in H. destruct H as (? & ? & [] & ? & _ & H & ->).
  apply bind_Ok in H. destruct H as (? & ? & a & ? & _ & H & ->).
  inversion H; subst. clear.
  destruct f as [h s6 s4 ft pb bo qa nr sn hd ca cc ck ab sc scc nv args].
  simpl. destruct s6, s4, qa, nr; simpl; repeat split; reflexivity.
Qed.

Lemma doFlags_forces_nothing_else_witness :
  let f := Scenario.flags Scenario.url false false false [] ""
                          false false false "" in
  exists o,
    doFlags f 0 = ([], 0, Ok (o, Scenario.url)) /\
    queryall o = false /\ noredirect o = false.
Proof.
  eexists. split; [reflexivity |].
  destruct (doFlags_forces_nothing_else
              (Scenario.flags Scenario.url false false false [] ""
                              false false false "")
              0 [] 0 _ Scenario.url eq_refl) as (Hq & Hr & _).
  split; [exact Hq | exact Hr].
Defined.

(* ----------------------------------------------------------------- *)
(** *** getRequest, url2addressport, getClient *)

Lemma nonempty_false s : nonempty s = false <-> s = "".
Proof.
  unfold nonempty. rewrite negb_false_iff. apply String.eqb_eq.
Qed.

Lemma nonempty_true s : nonempty s = true <-> s <> "".
Proof.
  unfold nonempty. rewrite negb_true_iff. apply String.eqb_neq.
Qed.

Lemma addHeaders_result hs request t tr t' request' :
  addHeaders hs request t = (tr, t', Ok request') ->
  Method request' = Method request /\ URL request' = URL request /\
  BasicAuth request' = BasicAuth request /\
  exists kvs,
    Forall2 (fun h kv => h = fst kv ++ ":" ++ snd kv /\
                         contains_colon (fst kv) = false) hs kvs /\
    ReqHeader request'
    = fold_left (fun h kv => MIMEHeader_Add h (fst kv) (snd kv)) kvs
                (ReqHeader request).
Proof.
  revert request t tr t'. induction hs as [| h hs IH]; intros request t tr t'; simpl.
  - intros H. inversion H; subst. repeat split; auto.
    exists []. split; [constructor | reflexivity].
  - intros H.
    apply bind_Ok in H. destruct H as (? & ? & key & ? & Hk & H & ->).
    apply bind_Ok in H. destruct H as (? & ? & val & ? & Hv & H & ->).
    apply index_Ok in Hk. destruct Hk as (Hk & -> & ->).
    apply index_Ok in Hv. destruct Hv as (Hv & -> & ->).
    unfold SplitN_colon_2 in Hk, Hv.
    destruct (cut_colon h) as [[a b] |] eqn:Hcut; simpl in Hk, Hv; [| discriminate].
    inversion Hk; inversion Hv; subst.
    destruct (IH _ _ _ _ H) as (Hm & Hu & Hb & kvs & Hf & Hh).
    simpl in *. repeat split; auto.
    exists ((key, val) :: kvs). split.
    + constructor; [| exact Hf]. simpl. apply cut_colon_round_trip. exact Hcut.
    + rewrite Hh. reflexivity.
Qed.





(** X7: [getRequest] returns a request exactly when the URL parses and
    every [-header] argument has a colon; otherwise the run ends there
    ([log.Fatal] for the URL, a panic for a header).  It prints nothing
    when it returns. *)
Theorem getRequest_returns_iff env o url t :
  (exists request, getRequest env o url t = ([], t, Ok request)) <->
  (exists parsed, url_Parse env url = inr parsed) /\
  Forall (fun h => contains_colon h = true) (headers o).
Proof.
  split.
  - intros [request H]. unfold getRequest, http_NewRequest in H.
    destruct (url_Parse env url) as [e | parsed] eqn:Hp; [discriminate |].
    split; [eauto |].
    destruct (Forall_Exists_dec (fun h => contains_colon h = true)
                (fun h => bool_dec (contains_colon h) true) (headers o))
      as [Hall | Hex]; [exact Hall |].
    exfalso.
    assert (Hex' : Exists (fun h => contains_colon h = false) (headers o)).
    { eapply Exists_impl; [| exact Hex]. intros h Hh. simpl in Hh.
      destruct (contains_colon h); congruence. }
    rewrite (addHeaders_panic _ _ _ Hex') in H. discriminate.
  - intros ((parsed & Hp) & Hall). eapply getRequest_Ok; eauto.
Qed.

(** X8: [url2addressport] fails exactly when the URL does not parse, with
    the error of the parser.  For a URL that parses it returns the host
    name of the URL and a port: the port of the URL when there is one,
    else 80 for http and 443 for https; for any other scheme without a
    port the port is the empty string, and no error is raised. *)
Theorem url2addressport_port env url :
  (forall e, url2addressport env url = inl e <-> url_Parse env url = inl e) /\
  (forall parsed,
     url_Parse env url = inr parsed ->
     exists port,
       url2addressport env url = inr (Hostname parsed, port) /\
       (Port parsed <> "" -> port = Port parsed) /\
       (Port parsed = "" -> Scheme parsed = "http" -> port = "80") /\
       (Port parsed = "" -> Scheme parsed = "https" -> port = "443") /\
       (port = "" <->
        Port parsed = "" /\ Scheme parsed <> "http" /\
        Scheme parsed <> "https")).
Proof.
  unfold url2addressport, portMap. split.
  - intros e. destruct (url_Parse env url) as [e' | parsed];
      split; intros H; try discriminate H; inversion H; reflexivity.
  - intros parsed ->.
    eexists. split; [reflexivity |].
    destruct (String.eqb_spec (Port parsed) "") as [Hp | Hp].
    + destruct (String.eqb_spec (Scheme parsed) "http") as [Hs | Hs].
      * repeat split; try congruence; try discriminate.
        intros (_ & Hn & _). congruence.
      * destruct (String.eqb_spec (Scheme parsed) "https") as [Hs' | Hs'].
        -- repeat split; try congruence; try discriminate.
           intros (_ & _ & Hn). congruence.
        -- repeat split; try congruence; auto.
    + repeat split; try congruence.
      intros (Hn & _). congruence.
Qed.

Lemma url2addressport_port_witness :
  exists port,
    url2addressport (Scenario.env Scenario.whole_body) Scenario.url
    = inr ("example.test", port) /\
    port = "443".
Proof.
  destruct (proj2 (url2addressport_port (Scenario.env Scenario.whole_body)
                     Scenario.url)
                  {| Scheme := "https"; Hostname := "example.test"; Port := "" |}
                  eq_refl)
    as (port & Hu & _ & _ & H443 & _).
  exists port. split; [exact Hu | exact (H443 eq_refl eq_refl)].
Defined.

(** X9: the client [getClient] returns keeps the default dialer exactly
    when the address is empty, and otherwise dials the given address
    whatever address the transport asks for.  An address made by
    [addressString] is never empty, so every client of the loop over the
    addresses has its dialer overridden.  Time-out and redirect policy
    are those of the options. *)
Theorem getClient_dial_override env o address t tr t' c :
  getClient env o address t = (tr, t', Ok c) ->
  (DialAddress c = None <-> address = "") /\
  (address <> "" -> DialAddress c = Some address) /\
  (forall ip port, address = addressString env ip port ->
                   DialAddress c = Some address) /\
  Timeout c = timeout o /\ CheckRedirectLast c = noredirect o /\
  ForceAttemptHTTP2 c = true.
Proof.
  unfold getClient. intros H.
  apply bind_Ok in H. destruct H as (? & ? & cfg & ? & _ & H & ->).
  inversion H; subst. simpl.
  destruct (nonempty address) eqn:Hne.
  - pose proof (proj1 (nonempty_true address) Hne) as Hn.
    repeat split; auto; try discriminate. intros; contradiction.
  - pose proof (proj1 (nonempty_false address) Hne) as He.
    repeat split; auto; try contradiction.
    intros ip port Ha. rewrite Ha, addressString_nonempty in Hne. discriminate.
Qed.

Lemma getClient_dial_override_witness :
  exists c,
    getClient (Scenario.env Scenario.whole_body)
              (Scenario.options false false true [] false false false "")
              "" 0 = ([], 0, Ok c) /\
    (DialAddress c = None <-> "" = "") /\ CheckRedirectLast c = true.
Proof.
  eexists. split; [reflexivity |].
  destruct (getClient_dial_override (Scenario.env Scenario.whole_body)
              (Scenario.options false false true [] false false false "")
              "" 0 [] 0 _ eq_refl) as (Hd & _ & _ & _ & Hr & _).
  split; [exact Hd | exact Hr].
Defined.

(* ----------------------------------------------------------------- *)
(** *** getTLSConfig *)

Lemma nonempty_or_empty s : (if nonempty s then s else "") = s.
Proof.
  destruct (nonempty s) eqn:H; [reflexivity |].
  symmetry. apply nonempty_false. exact H.
Qed.

(** X10: [getTLSConfig] ends the run exactly when a file it needs cannot
    be loaded: the CA file, needed when verification is on and [-cacert]
    is given, or the client key pair, needed when [-clientcert] is given.
    It then ends with exit status 1.  Nothing else makes it fail; what
    the CA file contains is not looked at. *)
Theorem getTLSConfig_fatal_iff env o t :
  ((exists s, result_of (getTLSConfig env o t) = Halt s) <->
   (noverify o = false /\ cacert o <> "" /\
    exists e, ioutil_ReadFile env (cacert o) = inl e) \/
   (clientcert o <> "" /\
    exists e, tls_LoadX509KeyPair env (clientcert o) (clientkey o) = inl e)) /\
  (forall s, result_of (getTLSConfig env o t) = Halt s -> s = Exited 1).
Proof.
  unfold getTLSConfig, bind, log_Fatal, bind, emit, halt, ret, result_of.
  destruct (noverify o) eqn:Hnv;
    [| destruct (nonempty (cacert o)) eqn:Hca;
       [destruct (ioutil_ReadFile env (cacert o)) as [e | data] eqn:Hrd |]];
    simpl;
    try (destruct (nonempty (clientcert o)) eqn:Hcc;
         [destruct (tls_LoadX509KeyPair env (clientcert o) (clientkey o))
            as [e' | pair] eqn:Hld |]);
    simpl;
    try apply nonempty_true in Hca; try apply nonempty_false in Hca;
    try apply nonempty_true in Hcc; try apply nonempty_false in Hcc;
    (split; [split |]);
    try (intros [s Hs]; discriminate Hs);
    try (intros s Hs; inversion Hs; reflexivity);
    try (intros s Hs; discriminate Hs);
    try (intros _; eexists; reflexivity);
    try (intros _; right; split; [assumption | eexists; reflexivity]);
    try (intros _; left; repeat split; try assumption; eexists; reflexivity);
    try (intros [(Hf & _) | (Hn & (e0 & He0))]; congruence);
    try (intros [(_ & Hn & (e0 & He0)) | (Hn' & (e1 & He1))]; congruence).
Qed.

(** X11: the configuration [getTLSConfig] returns.  The server name is
    the [-sni] argument.  With [-noverify], or without [-cacert], no pool
    of roots is set and no file is read; otherwise the pool is whatever
    certificates the CA file holds, possibly none.  Without [-clientcert]
    no client certificate is set and no key pair is loaded, whatever
    [-clientkey] is; with it, the one pair loaded from both files. *)
Theorem getTLSConfig_config env o t tr t' cfg :
  getTLSConfig env o t = (tr, t', Ok cfg) ->
  ServerName cfg = sni o /\ InsecureSkipVerify cfg = noverify o /\
  (noverify o = true \/ cacert o = "" ->
   RootCAs cfg = None /\ forall p, ~ In (EvReadFile p) tr) /\
  (noverify o = false -> cacert o <> "" ->
   exists data, ioutil_ReadFile env (cacert o) = inr data /\
                RootCAs cfg = Some (AppendCertsFromPEM env data)) /\
  (clientcert o = "" ->
   Certificates cfg = [] /\ forall c k, ~ In (EvLoadX509KeyPair c k) tr) /\
  (clientcert o <> "" ->
   exists pair,
     tls_LoadX509KeyPair env (clientcert o) (clientkey o) = inr pair /\
     Certificates cfg = [pair]).
Proof.
  unfold getTLSConfig, bind, log_Fatal, bind, emit, halt, ret.
  rewrite nonempty_or_empty.
  destruct (noverify o) eqn:Hnv;
    [| destruct (nonempty (cacert o)) eqn:Hca;
       [destruct (ioutil_ReadFile env (cacert o)) as [e | data] eqn:Hrd |]];
    simpl; try discriminate;
    (destruct (nonempty (clientcert o)) eqn:Hcc;
     [destruct (tls_LoadX509KeyPair env (clientcert o) (clientkey o))
        as [e' | pair] eqn:Hld |]);
    simpl; try discriminate;
    try apply nonempty_true in Hca; try apply nonempty_false in Hca;
    try apply nonempty_true in Hcc; try apply nonempty_false in Hcc;
    intros H; inversion H; subst; clear H; simpl;
    repeat match goal with
           | |- _ /\ _ => split
           | |- forall _, _ => intro
           | |- ~ _ => intro
           | H : _ \/ _ |- _ => destruct H
           | H : In _ (_ :: _) |- _ => destruct H
           | H : In _ [] |- _ => destruct H
           end;
    try reflexivity; try congruence; try discriminate;
    try (eexists; split; reflexivity).
Qed.

Lemma getTLSConfig_config_witness :
  let o := set_credentials
             (Scenario.options false false false [] false false true "ca.pem")
             "" "" in
  exists cfg,
    getTLSConfig (Scenario.env Scenario.whole_body) o 0 = ([], 0, Ok cfg) /\
    InsecureSkipVerify cfg = true /\ RootCAs cfg = None.
Proof.
  eexists. split; [vm_compute; reflexivity |].
  destruct (getTLSConfig_config (Scenario.env Scenario.whole_body)
              (set_credentials
                 (Scenario.options false false false [] false false true "ca.pem")
                 "" "")
              0 [] 0 _ eq_refl) as (_ & Hv & Hr & _).
  split; [exact Hv | exact (proj1 (Hr (or_introl eq_refl)))].
Defined.

(* ----------------------------------------------------------------- *)
(** *** Credentials, from the command line to the request *)

Lemma cut_colon_app a b :
  contains_colon a = false -> cut_colon (a ++ ":" ++ b) = Some (a, b).
Proof.
  induction a as [| c a IH]; simpl in *; [reflexivity |].
  destruct (Ascii.eqb c ":"); simpl; [discriminate |].
  intros H. rewrite (IH H). reflexivity.
Qed.

Lemma nonempty_with_colon a b : nonempty (a ++ ":" ++ b) = true.
Proof. destruct a; reflexivity. Qed.

(** The credentials [doFlags] stores are the two parts of the cut. *)
Lemma doFlags_cut f t tr t' o url a b :
  doFlags f t = (tr, t', Ok (o, url)) ->
  nonempty (flag_authbasic f) = true ->
  cut_colon (flag_authbasic f) = Some (a, b) ->
  username o = a /\ password o = b.
Proof.
  unfold doFlags, NArg. intros H Hne Hcut. rewrite Hne in H.
  unfold SplitN_colon_2 in H. rewrite Hcut in H.
  apply bind_Ok in H. destruct H as (tr1 & t1 & o1 & tr2 & H1 & H & ->).
  apply bind_Ok in H. destruct H as (? & ? & [] & ? & _ & H & ->).
  apply bind_Ok in H. destruct H as (? & ? & [] & ? & _ & H & ->).
  apply bind_Ok in H. destruct H as (? & ? & u & ? & _ & H & ->).
  inversion H; subst. inversion H1; subst. clear.
  destruct f as [h s6 s4 ft pb bo qa nr sn hd ca cc ck ab sc scc nv args].
  simpl. destruct s6, s4, qa; simpl; auto.
Qed.

(** X12: an [-authbasic] value [user:pw] whose [user] has no colon
    reaches the request as these credentials when [user] is not empty.
    When it is empty ([-authbasic :pw]) the password is stored but
    [readResponse] leaves the request as it is: no credentials are
    sent. *)
Theorem authbasic_reaches_request f t tr t' o url user pw request :
  doFlags f t = (tr, t', Ok (o, url)) ->
  flag_authbasic f = user ++ ":" ++ pw ->
  contains_colon user = false ->
  username o = user /\ password o = pw /\
  (user <> "" -> BasicAuth (setAuth o request) = Some (user, pw)) /\
  (user = "" -> setAuth o request = request).
Proof.
  intros Hf Ha Hc.
  destruct (doFlags_cut f t tr t' o url user pw Hf) as (Hu & Hp).
  { rewrite Ha. apply nonempty_with_colon. }
  { rewrite Ha. apply cut_colon_app. exact Hc. }
  split; [exact Hu |]. split; [exact Hp |]. unfold setAuth. rewrite Hu, Hp.
  split; intros Hn.
  - apply nonempty_true in Hn. rewrite Hn. reflexivity.
  - apply nonempty_false in Hn. rewrite Hn. reflexivity.
Qed.

Lemma authbasic_reaches_request_witness :
  exists o,
    doFlags (Scenario.flags Scenario.url false false false [] ":secret"
                            false false false "") 0
      = ([], 0, Ok (o, Scenario.url)) /\
    password o = "secret" /\ setAuth o Scenario.request = Scenario.request.
Proof.
  eexists. split; [vm_compute; reflexivity |].
  destruct (authbasic_reaches_request
              (Scenario.flags Scenario.url false false false [] ":secret"
                              false false false "")
              0 [] 0 _ Scenario.url "" "secret" Scenario.request
              eq_refl eq_refl eq_refl) as (_ & Hp & _ & Hs).
  split; [exact Hp | exact (Hs eq_refl)].
Defined.

(* ----------------------------------------------------------------- *)
(** *** The run: how it ends before any request *)

(** X13: a URL that does not parse, or a host that does not resolve, ends
    the run with the error logged and exit status 1.  In both cases
    nothing has been printed (not even the prologue) and no request has
    been built or sent; the resolver is asked only in the second. *)
Theorem run_fatal_before_any_request env o url t :
  (forall e, url_Parse env url = inl e ->
             run env o url t = ([EvLog e], t, Halt (Exited 1))) /\
  (forall hostname port e,
     url2addressport env url = inr (hostname, port) ->
     net_LookupIP env hostname = inl e ->
     run env o url t = ([EvLookupIP hostname; EvLog e], t, Halt (Exited 1))).
Proof.
  split.
  - intros e He. unfold run, url2addressport. rewrite He. reflexivity.
  - intros hostname port e Hu Hl. unfold run. rewrite Hu.
    apply bind_halt. rewrite getIpList_run, Hl. reflexivity.
Qed.

Lemma run_fatal_before_any_request_witness :
  run Cases.offline (Scenario.options false false false [] false false false "")
      Scenario.url 0
  = ([EvLookupIP "example.test"; EvLog "no such host"], 0, Halt (Exited 1)).
Proof.
  exact (proj2 (run_fatal_before_any_request Cases.offline
                  (Scenario.options false false false [] false false false "")
                  Scenario.url 0)
               "example.test" "443" "no such host" eq_refl eq_refl).
Defined.

(* ----------------------------------------------------------------- *)
(** *** querySingle for any address *)

Lemma getRequest_url env o url t tr t' request :
  getRequest env o url t = (tr, t', Ok request) -> URL request = url.
Proof.
  unfold getRequest, http_NewRequest.
  destruct (url_Parse env url) as [e | parsed]; [discriminate |].
  intros H. apply addHeaders_result in H. destruct H as (_ & Hu & _).
  exact Hu.
Qed.

(** One call of [querySingle], whatever the address: the set-up of the
    client, one exchange, and a report that only prints. *)
Lemma querySingle_run_any env o trc cfg request address t :
  (forall t, getTLSConfig env o t = (trc, t, Ok cfg)) ->
  (showcert o = true -> showcertchain o = false -> leaf_present env) ->
  exists rest t',
    querySingle env o request address t
      = ((trc ++
          EvDo {| Timeout := timeout o; TLSClientConfig := cfg;
                  ForceAttemptHTTP2 := true;
                  DialAddress := if nonempty address then Some address else None;
                  CheckRedirectLast := noredirect o |}
               (setAuth o request) :: rest)%list, t', Ok tt) /\
    attempts rest = [].
Proof.
  intros Htls Hleaf.
  pose proof (getClient_run env o trc cfg address t Htls) as Ec.
  match type of Ec with _ = (_, _, Ok ?x) => set (c := x) in * end.
  pose proof (readResponse_run env o c request t) as Er.
  unfold querySingle. rewrite (bind_step _ _ _ _ _ _ Ec).
  destruct (client_Do env t c (setAuth o request)) as [d [e | resp]] eqn:Edo.
  - rewrite (bind_step _ _ _ _ _ _ Er). simpl.
    exists [EvPrintln [AErr e]], (t + d). split; reflexivity.
  - rewrite (bind_step _ _ _ _ _ _ Er). simpl.
    destruct (body_err (Body resp)) as [e |] eqn:Eb.
    + exists [EvReadAll; EvBodyClose; EvPrintln [AErr e]],
             (t + d + body_time (Body resp)).
      split; reflexivity.
    + assert (Hp : prints_only is_print
        (bind (when (negb (bodyonly o))
                 (bind (emit (EvPrintf "## ResponseTime: %v\n"
                                [AInt (t + d + body_time (Body resp) - t)]))
                    (fun _ => bind (printTLSinfo env o resp)
                       (fun _ => bind (printStatus env resp)
                          (fun _ => printHeaders (RespHeader resp))))))
              (fun _ => when (printbody o || bodyonly o)
                          (emit (EvPrintf "%s\n" [ABytes (body_data (Body resp))]))))).
      { printing.
        apply printTLSinfo_prints. intros cs Hcs Hsc Hch.
        apply (Hleaf Hsc Hch t c (setAuth o request) resp cs); [| exact Hcs].
        rewrite Edo. reflexivity. }
      destruct Hp as (out & Hp & Fp).
      rewrite (Hp (t + d + body_time (Body resp))).
      exists ([EvReadAll; EvBodyClose] ++ out)%list,
             (t + d + body_time (Body resp)).
      split; [reflexivity |].
      rewrite attempts_app, (attempts_print out Fp). reflexivity.
Qed.

(** X14: without [queryall] the run makes exactly one exchange, whatever
    the number of addresses the host resolves to (none included): the
    addresses are only listed.  The client of that exchange keeps the
    default dialer, so the transport itself picks the address; the
    request is the one for the URL of the command line. *)
Theorem single_mode_one_exchange env o url hostname port iplist trc cfg t :
  queryall o = false ->
  url2addressport env url = inr (hostname, port) ->
  net_LookupIP env hostname = inr iplist ->
  Forall (fun h => contains_colon h = true) (headers o) ->
  getTLSConfig env o 0 = (trc, 0, Ok cfg) ->
  (showcert o = true -> showcertchain o = false -> leaf_present env) ->
  exists tr t' c r,
    run env o url t = (tr, t', Ok tt) /\
    attempts tr = [(c, r)] /\
    DialAddress c = None /\ TLSClientConfig c = cfg /\
    URL r = url /\ Method r = "GET".
Proof.
  intros Hq Eu El Hh Etls Hleaf.
  destruct (getTLSConfig_any_time env o trc cfg Etls) as (Htls & Htrc).
  destruct (url2addressport_parses _ _ _ _ Eu) as (parsed & Ep).
  destruct (getRequest_Ok env o url t parsed Ep Hh) as (request & Er).
  pose proof (getIpList_run env o hostname t) as Eg. rewrite El in Eg.
  destruct (prints_only_when is_print (negb (bodyonly o)) _
              (prologue_prints url hostname port
                 (if negb (ipv6only o || ipv4only o) then iplist
                  else filterLoop o iplist []))) as (out & Hp & Fp).
  destruct (querySingle_run_any env o trc cfg request "" t Htls Hleaf)
    as (rest & t' & Eq & Hrest).
  simpl in Eq.
  match type of Eq with
    _ = ((_ ++ EvDo ?x ?y :: _)%list, _, _) => set (c := x) in *; set (r := y) in *
  end.
  exists ((EvLookupIP hostname :: out) ++ EvPrintln [] :: trc ++ EvDo c r :: rest)%list,
         t', c, r.
  split.
  - unfold run. rewrite Eu, (bind_step _ _ _ _ _ _ Eg).
    rewrite (bind_step _ _ _ _ _ _ (Hp t)), (bind_step _ _ _ _ _ _ Er), Hq.
    assert (Eturn : bind (emit (EvPrintln []))
                         (fun _ => querySingle env o request "") t
                    = ((EvPrintln [] :: trc ++ EvDo c r :: rest)%list, t', Ok tt))
      by (unfold bind, emit; rewrite Eq; reflexivity).
    rewrite Eturn. reflexivity.
  - split.
    + rewrite attempts_app. cbn [attempts].
      rewrite (attempts_print out Fp), attempts_app, Htrc. cbn [attempts app].
      rewrite Hrest. reflexivity.
    + subst c r. simpl. repeat split; try reflexivity.
      * rewrite <- (getRequest_url _ _ _ _ _ _ _ Er).
        unfold setAuth. destruct (nonempty (username o)); reflexivity.
      * unfold setAuth. destruct (nonempty (username o)); simpl;
          unfold getRequest, http_NewRequest in Er; rewrite Ep in Er;
          apply addHeaders_result in Er; destruct Er as (Hm & _); exact Hm.
Qed.

Lemma single_mode_one_exchange_witness :
  exists tr t' c r,
    run (Scenario.env Scenario.whole_body)
        (Scenario.options false false false [] false false false "")
        Scenario.url 0 = (tr, t', Ok tt) /\
    attempts tr = [(c, r)] /\
    DialAddress c = None /\
    TLSClientConfig c = {| ServerName := ""; InsecureSkipVerify := false;
                           RootCAs := None; Certificates := [] |} /\
    URL r = Scenario.url /\ Method r = "GET".
Proof.
  apply (single_mode_one_exchange
           (Scenario.env Scenario.whole_body)
           (Scenario.options false false false [] false false false "")
           Scenario.url "example.test" "443" [Scenario.ip4; Scenario.ip6]
           []
           {| ServerName := ""; InsecureSkipVerify := false;
              RootCAs := None; Certificates := [] |} 0);
    try reflexivity.
  - constructor.
  - intros H. discriminate H.
Defined.

(** X15: with [-bodyonly] and without [queryall], a run whose exchange
    succeeds and whose body is read to the end prints an empty line and
    then the body, and nothing else: no prologue, no response time, no
    TLS, status or header lines.  The empty line before the exchange is
    printed all the same. *)
Theorem bodyonly_prints_the_body_only
        env o url hostname port iplist trc cfg request t d resp :
  bodyonly o = true ->
  queryall o = false ->
  url2addressport env url = inr (hostname, port) ->
  net_LookupIP env hostname = inr iplist ->
  getRequest env o url t = ([], t, Ok request) ->
  getTLSConfig env o 0 = (trc, 0, Ok cfg) ->
  client_Do env t
    {| Timeout := timeout o; TLSClientConfig := cfg; ForceAttemptHTTP2 := true;
       DialAddress := None; CheckRedirectLast := noredirect o |}
    (setAuth o request) = (d, inr resp) ->
  body_err (Body resp) = None ->
  run env o url t =
  ((EvLookupIP hostname :: EvPrintln [] :: trc ++
    [ EvDo {| Timeout := timeout o; TLSClientConfig := cfg;
              ForceAttemptHTTP2 := true; DialAddress := None;
              CheckRedirectLast := noredirect o |} (setAuth o request);
      EvReadAll; EvBodyClose;
      EvPrintf "%s\n" [ABytes (body_data (Body resp))] ])%list,
   t + d + body_time (Body resp), Ok tt) /\
  Forall (fun e => ~ is_print e) trc.
Proof.
  intros Hb Hq Eu El Er Etls Edo Hbody.
  destruct (getTLSConfig_any_time env o trc cfg Etls) as (Htls & _).
  split.
  - pose proof (getIpList_run env o hostname t) as Eg. rewrite El in Eg.
    pose proof (getClient_run env o trc cfg "" t Htls) as Ec. simpl in Ec.
    match type of Ec with _ = (_, _, Ok ?x) => set (c := x) in * end.
    pose proof (readResponse_run env o c request t) as Err.
    rewrite Edo in Err.
    assert (Eq : querySingle env o request "" t
                 = ((trc ++ [EvDo c (setAuth o request); EvReadAll; EvBodyClose;
                             EvPrintf "%s\n" [ABytes (body_data (Body resp))]])%list,
                    t + d + body_time (Body resp), Ok tt)).
    { unfold querySingle.
      rewrite (bind_step _ _ _ _ _ _ Ec), (bind_step _ _ _ _ _ _ Err).
      simpl. rewrite Hbody, Hb, orb_true_r. reflexivity. }
    assert (Eturn : bind (emit (EvPrintln []))
                         (fun _ => querySingle env o request "") t
                    = ((EvPrintln [] :: trc ++
                        [EvDo c (setAuth o request); EvReadAll; EvBodyClose;
                         EvPrintf "%s\n" [ABytes (body_data (Body resp))]])%list,
                       t + d + body_time (Body resp), Ok tt))
      by (unfold bind, emit; rewrite Eq; reflexivity).
    unfold run. rewrite Eu, (bind_step _ _ _ _ _ _ Eg), Hb. simpl negb.
    assert (Ew : when false (prologue url hostname port
                    (if negb (ipv6only o || ipv4only o) then iplist
                     else filterLoop o iplist [])) t = ([], t, Ok tt))
      by reflexivity.
    rewrite (bind_step _ _ _ _ _ _ Ew), (bind_step _ _ _ _ _ _ Er), Hq, Eturn.
    reflexivity.
  - revert Etls. clear.
    unfold getTLSConfig, bind, log_Fatal, bind, emit, halt, ret.
    destruct (noverify o); [| destruct (nonempty (cacert o));
      [destruct (ioutil_ReadFile env (cacert o)) |]]; simpl;
      try discriminate;
      (destruct (nonempty (clientcert o));
       [destruct (tls_LoadX509KeyPair env (clientcert o) (clientkey o)) |]);
      simpl; try discriminate;
      intros H; inversion H; subst; repeat constructor; simpl; auto.
Qed.

Lemma bodyonly_prints_the_body_only_witness :
  run (Scenario.env Scenario.whole_body) Cases.bodyonly_options Scenario.url 0
  = ([ EvLookupIP "example.test"; EvPrintln [];
       EvDo Scenario.client Scenario.request; EvReadAll; EvBodyClose;
       EvPrintf "%s\n" [ABytes [x68; x69]] ], 25, Ok tt).
Proof.
  exact (proj1 (bodyonly_prints_the_body_only
                  (Scenario.env Scenario.whole_body) Cases.bodyonly_options
                  Scenario.url "example.test" "443" [Scenario.ip4; Scenario.ip6]
                  []
                  {| ServerName := ""; InsecureSkipVerify := false;
                     RootCAs := None; Certificates := [] |}
                  Scenario.request 0 10 (Scenario.answer Scenario.whole_body)
                  eq_refl eq_refl eq_refl eq_refl eq_refl eq_refl eq_refl
                  eq_refl)).
Defined.

(* ----------------------------------------------------------------- *)
(** *** The loop over the addresses: what is sent *)

Lemma setAuth_idempotent o request :
  setAuth o (setAuth o request) = setAuth o request.
Proof.
  unfold setAuth. destruct (nonempty (username o)); reflexivity.
Qed.

(** X16: the exchanges of the loop over the addresses, in full: for every
    address, in order, the same request (with the credentials when a
    user name is set) through a client with the same time-out, TLS
    configuration and redirect policy, which differs from the others
    only in the address it dials.  The request is shared by the turns of
    the loop; setting the credentials again leaves it as it is. *)
Theorem queryAll_exchanges env o trc cfg request port iplist t :
  getTLSConfig env o 0 = (trc, 0, Ok cfg) ->
  (showcert o = true -> showcertchain o = false -> leaf_present env) ->
  attempts (trace_of (queryAll env o request port iplist t))
  = map (fun ip =>
           ({| Timeout := timeout o; TLSClientConfig := cfg;
               ForceAttemptHTTP2 := true;
               DialAddress := Some (addressString env ip port);
               CheckRedirectLast := noredirect o |},
            setAuth o request)) iplist /\
  setAuth o (setAuth o request) = setAuth o request.
Proof.
  intros Etls Hleaf. split; [| apply setAuth_idempotent].
  destruct (getTLSConfig_any_time env o trc cfg Etls) as (Htls & Htrc).
  unfold queryAll. revert t.
  induction iplist as [| ip rest IH]; intros t; [reflexivity |].
  destruct (querySingle_run_any env o trc cfg request
              (addressString env ip port) t Htls Hleaf)
    as (report & t1 & Eq & Hrep).
  rewrite addressString_nonempty in Eq.
  match type of Eq with
    _ = ((_ ++ EvDo ?x _ :: _)%list, _, _) => set (c := x) in *
  end.
  assert (Eturn :
    bind (emit (line_connect ip port))
         (fun _ => querySingle env o request (addressString env ip port)) t
    = ((line_connect ip port :: trc ++ EvDo c (setAuth o request) :: report)%list,
       t1, Ok tt))
    by (unfold bind, emit; rewrite Eq; reflexivity).
  simpl for_range. rewrite (bind_step _ _ _ _ _ _ Eturn).
  unfold trace_of at 1. cbn [fst]. unfold line_connect at 1.
  rewrite attempts_app. cbn [attempts].
  rewrite attempts_app, Htrc. cbn [attempts app].
  rewrite Hrep. cbn [app map]. rewrite IH. reflexivity.
Qed.

Lemma queryAll_exchanges_witness :
  attempts (trace_of (queryAll (Scenario.env Scenario.whole_body)
                        (Scenario.options false false true [] false false false "")
                        Scenario.request "443" [Scenario.ip4; Scenario.ip6] 0))
  = [ ({| Timeout := defaultTimeout;
          TLSClientConfig := {| ServerName := ""; InsecureSkipVerify := false;
                                RootCAs := None; Certificates := [] |};
          ForceAttemptHTTP2 := true; DialAddress := Some "192.0.2.1:443";
          CheckRedirectLast := true |}, Scenario.request);
      ({| Timeout := defaultTimeout;
          TLSClientConfig := {| ServerName := ""; InsecureSkipVerify := false;
                                RootCAs := None; Certificates := [] |};
          ForceAttemptHTTP2 := true; DialAddress := Some "[2001:db8::1]:443";
          CheckRedirectLast := true |}, Scenario.request) ].
Proof.
  refine (proj1 (queryAll_exchanges
                   (Scenario.env Scenario.whole_body)
                   (Scenario.options false false true [] false false false "")
                   []
                   {| ServerName := ""; InsecureSkipVerify := false;
                      RootCAs := None; Certificates := [] |}
                   Scenario.request "443" [Scenario.ip4; Scenario.ip6] 0
                   eq_refl _)).
  intros H. discriminate H.
Defined.

(* ----------------------------------------------------------------- *)
(** *** The two family filters together *)

(** X17: for one resolved list, the addresses [getIpList] keeps with
    [ipv4only] and those it keeps with [ipv6only] split the list: every
    resolved address is kept by one of the two filters, none by both,
    and the two results are together as long as the resolved list. *)
Theorem family_filters_partition env o4 o6 hostname iplist t :
  ipv4only o4 = true -> ipv6only o4 = false ->
  ipv4only o6 = false -> ipv6only o6 = true ->
  net_LookupIP env hostname = inr iplist ->
  exists l4 l6,
    result_of (getIpList env o4 hostname t) = Ok l4 /\
    result_of (getIpList env o6 hostname t) = Ok l6 /\
    (List.length l4 + List.length l6 = List.length iplist)%nat /\
    (forall ip, In ip iplist <-> In ip l4 \/ In ip l6) /\
    (forall ip, In ip l4 -> In ip l6 -> False).
Proof.
  intros H44 H46 H64 H66 El.
  exists (filter isipv4 iplist), (filter (fun ip => negb (isipv4 ip)) iplist).
  assert (F4 : filterLoop o4 iplist [] = filter isipv4 iplist).
  { rewrite filterLoop_filter, H44, H46. simpl. apply filter_ext.
    intros ip. destruct (isipv4 ip); reflexivity. }
  assert (F6 : filterLoop o6 iplist []
               = filter (fun ip => negb (isipv4 ip)) iplist).
  { rewrite filterLoop_filter, H64, H66. simpl. apply filter_ext.
    intros ip. destruct (isipv4 ip); reflexivity. }
  rewrite !getIpList_run, El, H44, H46, H64, H66. simpl.
  rewrite F4, F6. unfold result_of. simpl.
  split; [reflexivity |]. split; [reflexivity |].
  split; [apply filter_length |].
  split.
  - intros ip. rewrite !filter_In. destruct (isipv4 ip); simpl; intuition congruence.
  - intros ip. rewrite !filter_In. destruct (isipv4 ip); simpl; intuition congruence.
Qed.

Lemma family_filters_partition_witness :
  exists l4 l6,
    result_of (getIpList (Scenario.env Scenario.whole_body)
                 (Scenario.options false true false [] false false false "")
                 "example.test" 0) = Ok l4 /\
    result_of (getIpList (Scenario.env Scenario.whole_body)
                 (Scenario.options true false false [] false false false "")
                 "example.test" 0) = Ok l6 /\
    (List.length l4 + List.length l6
     = List.length [Scenario.ip4; Scenario.ip6])%nat /\
    (forall ip, In ip [Scenario.ip4; Scenario.ip6] <-> In ip l4 \/ In ip l6) /\
    (forall ip, In ip l4 -> In ip l6 -> False).
Proof.
  apply (family_filters_partition (Scenario.env Scenario.whole_body)
           (Scenario.options false true false [] false false false "")
           (Scenario.options true false false [] false false false "")
           "example.test" [Scenario.ip4; Scenario.ip6] 0);
    reflexivity.
Defined.

(* ----------------------------------------------------------------- *)
(** *** tls.go: the tables and the key size *)

(** X18: a value that is missing from a table is printed as the empty
    string, nothing fails: the name of a TLS version is empty exactly
    for the versions outside 0x0300..0x0304, the name of an extended key
    usage exactly for the values outside 0..13.  So [EKU2Strings] gives
    one name per entry of its list, empty for the entries it does not
    know. *)
Theorem missing_table_entries_are_empty :
  (forall v, lookupZ TLSversion v = "" <-> v < 0x0300 \/ 0x0304 < v) /\
  (forall eku, lookupZ ExtendedKeyUsage eku = "" <-> eku < 0 \/ 13 < eku) /\
  (forall ekulist,
     exists names,
       EKU2Strings ekulist = Join names " " /\
       Forall2 (fun eku name => name = lookupZ ExtendedKeyUsage eku /\
                                (name = "" <-> eku < 0 \/ 13 < eku))
               ekulist names).
Proof.
  assert (HT : forall v, lookupZ TLSversion v = "" <-> v < 0x0300 \/ 0x0304 < v).
  { intros v. unfold TLSversion, lookupZ.
    repeat match goal with
           | |- context [?a =? v] => destruct (Z.eqb_spec a v)
           end; split; intros H; try discriminate; try lia; reflexivity. }
  assert (HE : forall eku, lookupZ ExtendedKeyUsage eku = ""
                           <-> eku < 0 \/ 13 < eku).
  { intros v. unfold ExtendedKeyUsage, lookupZ.
    repeat match goal with
           | |- context [?a =? v] => destruct (Z.eqb_spec a v)
           end; split; intros H; try discriminate; try lia; reflexivity. }
  split; [exact HT |]. split; [exact HE |].
  intros ekulist. exists (map (lookupZ ExtendedKeyUsage) ekulist).
  split; [reflexivity |].
  induction ekulist as [| eku l IH]; cbn [map]; constructor;
    [split; [reflexivity | apply HE] | exact IH].
Qed.

Lemma BitLen_bounds x n :
  0 <= n -> 0 <= x < 2 ^ n -> 0 <= BitLen x <= n.
Proof.
  intros Hn Hx. unfold BitLen.
  destruct (Z.eqb_spec (Z.abs x) 0) as [E | E]; [lia |].
  rewrite Z.abs_eq by lia.
  assert (0 < x) by lia.
  pose proof (Z.log2_nonneg x).
  assert (Z.log2 x < n) by (apply Z.log2_lt_pow2; lia).
  lia.
Qed.

Lemma BitLen_full x n :
  0 < n -> 0 <= x < 2 ^ n -> (BitLen x = n <-> 2 ^ (n - 1) <= x).
Proof.
  intros Hn Hx. unfold BitLen.
  assert (Hp : 0 < 2 ^ (n - 1)) by (apply Z.pow_pos_nonneg; lia).
  destruct (Z.eqb_spec (Z.abs x) 0) as [E | E]; [lia |].
  rewrite Z.abs_eq by lia.
  assert (Hx0 : 0 < x) by lia.
  assert (Hl : Z.log2 x < n) by (apply Z.log2_lt_pow2; lia).
  pose proof (Z.log2_le_pow2 x (n - 1) Hx0) as Hle.
  split; intros H.
  - apply Hle. lia.
  - apply Hle in H. lia.
Qed.

(** X19: for an ECDSA key [KeySizeInBits] adds the bit lengths of the
    two coordinates of the point.  For coordinates below [2^n] (a curve
    over an [n]-bit field) the size it gives is at most [2n], and is
    [2n] exactly when both coordinates have their top bit set; it is
    not the size [n] of the curve. *)
Theorem KeySizeInBits_ecdsa x y n :
  0 < n -> 0 <= x < 2 ^ n -> 0 <= y < 2 ^ n ->
  0 <= KeySizeInBits (PkECDSA x y) <= 2 * n /\
  (KeySizeInBits (PkECDSA x y) = 2 * n <->
   2 ^ (n - 1) <= x /\ 2 ^ (n - 1) <= y).
Proof.
  intros Hn Hx Hy. unfold KeySizeInBits.
  pose proof (BitLen_bounds x n ltac:(lia) Hx) as Bx.
  pose proof (BitLen_bounds y n ltac:(lia) Hy) as By.
  pose proof (BitLen_full x n Hn Hx) as Fx.
  pose proof (BitLen_full y n Hn Hy) as Fy.
  split; [lia |]. split.
  - intros H. split; [apply Fx | apply Fy]; lia.
  - intros (H1 & H2). apply Fx in H1. apply Fy in H2. lia.
Qed.

Lemma KeySizeInBits_ecdsa_witness :
  0 <= KeySizeInBits (PkECDSA 5 9) <= 2 * 4 /\
  (KeySizeInBits (PkECDSA 5 9) = 2 * 4 <-> 2 ^ (4 - 1) <= 5 /\ 2 ^ (4 - 1) <= 9).
Proof.
  apply (KeySizeInBits_ecdsa 5 9 4); simpl; lia.
Defined.

(* ----------------------------------------------------------------- *)
(** *** KU2Strings *)

Lemma NoDup_map_on {A B} (f : A -> B) (l : list A) :
  (forall x y, In x l -> In y l -> f x = f y -> x = y) ->
  NoDup l -> NoDup (map f l).
Proof.
  intros Hinj Hnd. induction Hnd as [| x l Hx Hnd IH]; simpl; constructor.
  - intros Hin. apply in_map_iff in Hin. destruct Hin as (y & Hy & Hin).
    assert (y = x) by (apply Hinj; simpl; auto). subst. contradiction.
  - apply IH. intros a b Ha Hb. apply Hinj; simpl; auto.
Qed.

Lemma KeyUsage_names_distinct kv kv' :
  In kv KeyUsage -> In kv' KeyUsage -> snd kv = snd kv' -> kv = kv'.
Proof.
  unfold KeyUsage. simpl. intros H H'.
  repeat (destruct H as [H | H]; [subst kv |]); try contradiction;
    repeat (destruct H' as [H' | H']; [subst kv' |]); try contradiction;
    simpl; intros E; try discriminate E; reflexivity.
Qed.

Lemma KeyUsage_keys_nonzero kv : In kv KeyUsage -> fst kv <> 0.
Proof.
  unfold KeyUsage. simpl. intros H.
  repeat (destruct H as [H | H]; [subst kv; simpl; discriminate |]).
  contradiction.
Qed.

(** X20: whatever the order in which the [range] statement visits the
    table (each entry once), [KU2Strings] joins the names of exactly
    those entries whose bits are all set in the value, each name once.
    With no bit set the result is the empty string. *)
Theorem KU2Strings_selects_set_bits env ku :
  (forall kv, In kv (range_KeyUsage env) <-> In kv KeyUsage) ->
  NoDup (range_KeyUsage env) ->
  exists names,
    KU2Strings env ku = Join names " " /\
    NoDup names /\
    (forall name, In name names <->
       exists k, In (k, name) KeyUsage /\ Z.land ku k = k) /\
    (ku = 0 -> KU2Strings env ku = "").
Proof.
  intros Hsame Hnd.
  exists (map snd (filter (fun kv => Z.land ku (fst kv) =? fst kv)
                          (range_KeyUsage env))).
  split; [reflexivity |]. split; [| split].
  - apply NoDup_map_on; [| apply NoDup_filter; exact Hnd].
    intros x y Hx Hy. apply filter_In in Hx, Hy.
    apply KeyUsage_names_distinct; apply Hsame; tauto.
  - intros name. rewrite in_map_iff. split.
    + intros ([k n] & Hn & Hin). simpl in Hn. subst n.
      apply filter_In in Hin. destruct Hin as (Hin & Hb). simpl in Hb.
      exists k. split; [apply Hsame; exact Hin | apply Z.eqb_eq; exact Hb].
    + intros (k & Hin & Hb). exists (k, name). split; [reflexivity |].
      apply filter_In. split; [apply Hsame; exact Hin |].
      simpl. apply Z.eqb_eq. exact Hb.
  - intros ->. unfold KU2Strings.
    assert (E : filter (fun kv => Z.land 0 (fst kv) =? fst kv)
                       (range_KeyUsage env) = []).
    { assert (F : Forall (fun kv => fst kv <> 0) (range_KeyUsage env)).
      { apply Forall_forall. intros kv Hin.
        apply KeyUsage_keys_nonzero, Hsame, Hin. }
      clear Hsame Hnd.
      induction F as [| kv l Hkv _ IH]; [reflexivity |].
      cbn [filter]. rewrite Z.land_0_l.
      destruct (Z.eqb_spec 0 (fst kv)) as [E0 | _]; [congruence | exact IH]. }
    rewrite E. reflexivity.
Qed.

Lemma KU2Strings_selects_set_bits_witness :
  exists names,
    KU2Strings (Scenario.env Scenario.whole_body) 5 = Join names " " /\
    NoDup names /\
    (forall name, In name names <->
       exists k, In (k, name) KeyUsage /\ Z.land 5 k = k) /\
    (5 = 0 -> KU2Strings (Scenario.env Scenario.whole_body) 5 = "").
Proof.
  apply (KU2Strings_selects_set_bits (Scenario.env Scenario.whole_body) 5).
  - intros kv. simpl. tauto.
  - simpl. unfold KeyUsage.
    repeat (constructor;
            [simpl; intros H;
             repeat (destruct H as [H | H]; [discriminate H |]); exact H |]).
    constructor.
Defined.

(* ----------------------------------------------------------------- *)
(** *** printTLSinfo with showcert alone *)



(* ----------------------------------------------------------------- *)
(** *** TLS material that cannot be loaded *)

Lemma getTLSConfig_halt env o t trc t' s :
  getTLSConfig env o t = (trc, t', Halt s) ->
  s = Exited 1 /\ attempts trc = [] /\ Forall (fun e => ~ is_print e) trc.
Proof.
  unfold getTLSConfig, bind, log_Fatal, bind, emit, halt, ret.
  destruct (noverify o); [| destruct (nonempty (cacert o));
    [destruct (ioutil_ReadFile env (cacert o)) |]]; simpl;
    try (destruct (nonempty (clientcert o));
         [destruct (tls_LoadX509KeyPair env (clientcert o) (clientkey o)) |]);
    simpl; try discriminate;
    intros H; inversion H; subst;
    (split; [reflexivity | split; [reflexivity |]]);
    repeat constructor; simpl; auto.
Qed.

(** X22: the TLS material is loaded by [getClient], inside
    [querySingle], and not before.  When it cannot be loaded, a run that
    has got as far as the first exchange (single mode, or [queryall]
    with at least one address) ends there with exit status 1.  By then
    the host has been looked up and the prologue (unless [bodyonly]) and
    the CONNECT line of the first address, or the empty line of single
    mode, have been printed; what follows is what the failed load
    leaves, which prints nothing, and no request is sent to any
    address. *)
Theorem tls_failure_stops_before_first_exchange
        env o url hostname port iplist request t trc t' s :
  url2addressport env url = inr (hostname, port) ->
  result_of (getIpList env o hostname t) = Ok iplist ->
  getRequest env o url t = ([], t, Ok request) ->
  getTLSConfig env o t = (trc, t', Halt s) ->
  (queryall o = true -> iplist <> []) ->
  run env o url t
  = ((EvLookupIP hostname
      :: (if bodyonly o then [] else prologue_lines url hostname port iplist)
      ++ (if queryall o
          then EvPrintf "\nCONNECT: %s %s ..\n" [AIP (hd [] iplist); AStr port]
          else EvPrintln [])
      :: trc)%list, t', Halt s) /\
  s = Exited 1 /\
  Forall (fun e => ~ is_print e) trc /\
  attempts (trace_of (run env o url t)) = [].
Proof.
  intros Eu Eg Er Etls Hne.
  destruct (getTLSConfig_halt env o t trc t' s Etls) as (Hs & Htrc & Hnp).
  pose proof (getIpList_run env o hostname t) as Egr.
  destruct (net_LookupIP env hostname) as [e | iplist0];
    rewrite Egr in Eg; [discriminate |].
  unfold result_of in Eg. simpl in Eg. injection Eg as Eip. rewrite Eip in Egr.
  assert (Epr : when (negb (bodyonly o)) (prologue url hostname port iplist) t
                = ((if bodyonly o then []
                    else prologue_lines url hostname port iplist), t, Ok tt)).
  { destruct (bodyonly o); [reflexivity |].
    apply (prologue_lines_printed url hostname port iplist t). }
  assert (Hpr : attempts (if bodyonly o then []
                          else prologue_lines url hostname port iplist) = []).
  { destruct (bodyonly o); [reflexivity |]. unfold prologue_lines. cbn [attempts].
    clear. induction iplist as [| ip l IH]; [reflexivity | exact IH]. }
  assert (Ec : forall a, getClient env o a t = (trc, t', Halt s))
    by (intros a; unfold getClient; apply bind_halt; exact Etls).
  assert (Eq : forall a, querySingle env o request a t = (trc, t', Halt s))
    by (intros a; unfold querySingle; apply bind_halt; apply Ec).
  assert (Erun : run env o url t
    = ((EvLookupIP hostname
        :: (if bodyonly o then [] else prologue_lines url hostname port iplist)
        ++ (if queryall o
            then EvPrintf "\nCONNECT: %s %s ..\n" [AIP (hd [] iplist); AStr port]
            else EvPrintln [])
        :: trc)%list, t', Halt s)).
  { unfold run. rewrite Eu, (bind_step _ _ _ _ _ _ Egr).
    rewrite (bind_step _ _ _ _ _ _ Epr), (bind_step _ _ _ _ _ _ Er).
    destruct (queryall o) eqn:Hq.
    - destruct iplist as [| ip rest]; [exfalso; apply Hne; reflexivity |].
      assert (Eturn :
        bind (emit (line_connect ip port))
             (fun _ => querySingle env o request (addressString env ip port)) t
        = ((line_connect ip port :: trc)%list, t', Halt s))
        by (unfold bind, emit; rewrite Eq; reflexivity).
      unfold queryAll. simpl for_range.
      rewrite (bind_halt _ _ _ _ _ _ Eturn).
      unfold trace_of, time_of, result_of. reflexivity.
    - assert (Eturn :
        bind (emit (EvPrintln [])) (fun _ => querySingle env o request "") t
        = ((EvPrintln [] :: trc)%list, t', Halt s))
        by (unfold bind, emit; rewrite Eq; reflexivity).
      rewrite Eturn.
      unfold trace_of, time_of, result_of. reflexivity. }
  split; [exact Erun |]. split; [exact Hs |]. split; [exact Hnp |].
  rewrite Erun. unfold trace_of. cbn [fst attempts].
  rewrite attempts_app, Hpr.
  destruct (queryall o); cbn [attempts app]; exact Htrc.
Qed.

Lemma tls_failure_stops_before_first_exchange_witness :
  run (Scenario.env Scenario.whole_body)
      (Scenario.options false false true [] false false false "ca.pem")
      Scenario.url 0
  = ([ EvLookupIP "example.test";
       EvPrintf "URL: %s\nHostname: %s\nPort: %s\n"
         [AStr Scenario.url; AStr "example.test"; AStr "443"];
       EvPrintln [AStr "Addresses:"];
       EvPrintf "\t%s\n" [AIP Scenario.ip4];
       EvPrintf "\t%s\n" [AIP Scenario.ip6];
       EvPrintf "\nCONNECT: %s %s ..\n" [AIP Scenario.ip4; AStr "443"];
       EvReadFile "ca.pem"; EvLog "no such file or directory" ],
     0, Halt (Exited 1)).
Proof.
  refine (proj1 (tls_failure_stops_before_first_exchange
                   (Scenario.env Scenario.whole_body)
                   (Scenario.options false false true [] false false false "ca.pem")
                   Scenario.url "example.test" "443" [Scenario.ip4; Scenario.ip6]
                   Scenario.request 0
                   [EvReadFile "ca.pem"; EvLog "no such file or directory"]
                   0 (Exited 1) eq_refl eq_refl eq_refl eq_refl _)).
  intros _ H. discriminate H.
Defined.

(* ----------------------------------------------------------------- *)
(** *** The earlier doFlags *)

(** X23: the earlier [doFlags] leaves [queryall] as the command line
    gives it: a family flag does not imply it there.  It sets
    [noredirect] when [-queryall] is given, stores the family flags as
    they are, and never returns with both of them set. *)
Theorem earlier_doFlags_keeps_queryall f t tr t' o url :
  Earlier.doFlags f t = (tr, t', Ok (o, url)) ->
  Earlier.queryall o = Earlier.flag_queryall f /\
  Earlier.noredirect o = Earlier.flag_noredirect f || Earlier.flag_queryall f /\
  Earlier.useV6 o = Earlier.flag_6 f /\ Earlier.useV4 o = Earlier.flag_4 f /\
  Earlier.flag_6 f && Earlier.flag_4 f = false.
Proof.
  unfold Earlier.doFlags, Earlier.NArg. intros H.
  apply bind_Ok in H. destruct H as (tr1 & t1 & o1 & tr2 & H1 & H & ->).
  apply bind_Ok in H. destruct H as (? & ? & [] & ? & _ & H & ->).
  apply bind_Ok in H. destruct H as (? & ? & [] & ? & Hb & H & ->).
  apply bind_Ok in H. destruct H as (? & ? & u & ? & _ & H & ->).
  inversion H; subst. clear H.
  assert (E1 : Earlier.queryall o1 = Earlier.flag_queryall f /\
               Earlier.noredirect o1 = Earlier.flag_noredirect f /\
               Earlier.useV6 o1 = Earlier.flag_6 f /\
               Earlier.useV4 o1 = Earlier.flag_4 f).
  { destruct (nonempty (Earlier.flag_authbasic f)).
    - apply bind_Ok in H1. destruct H1 as (? & ? & a & ? & _ & H1 & ->).
      apply bind_Ok in H1. destruct H1 as (? & ? & b & ? & _ & H1 & ->).
      inversion H1; subst. simpl. auto.
    - inversion H1; subst. simpl. auto. }
  destruct E1 as (Eq & En & E6 & E4).
  assert (Hboth : Earlier.useV4 o1 && Earlier.useV6 o1 = false).
  { destruct (Earlier.queryall o1); simpl in Hb;
      destruct (Earlier.useV4 o1 && Earlier.useV6 o1); try reflexivity;
      discriminate Hb. }
  rewrite <- Eq, <- En, <- E6, <- E4.
  destruct (Earlier.queryall o1) eqn:Hq; simpl; rewrite ?Hq;
    repeat split; auto;
    try (rewrite andb_comm; assumption);
    destruct (Earlier.noredirect o1); reflexivity.
Qed.

Lemma earlier_doFlags_keeps_queryall_witness :
  exists o,
    Earlier.doFlags (Earlier.flags false true false false "" [Scenario.url]) 0
      = ([], 0, Ok (o, Scenario.url)) /\
    Earlier.useV4 o = true /\ Earlier.queryall o = false /\
    Earlier.noredirect o = false.
Proof.
  eexists. split; [vm_compute; reflexivity |].
  destruct (earlier_doFlags_keeps_queryall
              (Earlier.flags false true false false "" [Scenario.url])
              0 [] 0 _ Scenario.url eq_refl) as (Hq & Hn & _ & H4 & _).
  split; [exact H4 | split; [exact Hq | exact Hn]].
Defined.
